(** * AntAlmanac: the term table and the calendar toolbar

    A shallow embedding of
    - [packages/types/src/terms.ts]: the compiled term table, the derived
      enumeration of term names and its runtime schema;
    - [apps/antalmanac/src/components/Calendar/CalendarToolbar.tsx]: the
      handlers of the calendar toolbar and of the schedule selector popover,
      with the application store and the analytics module as collaborators.

    The definitions come first, module by module; the theorems follow. *)

From Stdlib Require Import Ascii String.
From stdpp Require Import gmap strings list sorting.

#[local] Open Scope string_scope.
#[local] Open Scope list_scope.
#[local] Open Scope Z_scope.

(* ===================================================================== *)
(** ** The schema collaborators of terms.ts *)
(* ===================================================================== *)

Module Arktype.

(** Modelled from the spec: [enumerate] (of the peterportal-schemas
    package) and [type] (of arktype) are imported by terms.ts; their code is
    outside of the two files embedded here.  The spec describes the schema
    they build as a runtime check that "must reject any string not in the
    compiled term-name set" and "fails with ValidationError when the
    candidate value is not a recognized term name or sentinel".  A definition
    is a union of string literals. *)
Inductive definition : Type :=
| Never
| StringLiteral (value : string)
| Union (left right : definition).

(** Modelled from the spec: [enumerate] builds the union of the literals of
    an array of strings. *)
Fixpoint enumerate (values : list string) : definition :=
  match values with
  | [] => Never
  | v :: rest => Union (StringLiteral v) (enumerate rest)
  end.

(** Modelled from the spec: the strings a definition recognizes. *)
Fixpoint allows (d : definition) (data : string) : bool :=
  match d with
  | Never => false
  | StringLiteral v => bool_decide (data = v)
  | Union l r => allows l data || allows r data
  end.

Inductive Problems : Type :=
| ValidationError (data : string).

(** Modelled from the spec: [type] turns a definition into a validator that
    returns the candidate itself, or a validation error when the candidate is
    not recognized. *)
Definition type (d : definition) (data : string) : string + Problems :=
  if allows d data then inl data else inr (ValidationError data).

End Arktype.

(* ===================================================================== *)
(** ** packages/types/src/terms.ts *)
(* ===================================================================== *)

Module Terms.

(** [{ shortName, longName, startDate? }]; [startDate] is
    [[year, monthIndex, day]] with months counted from 0. *)
Record Term := mkTerm {
  shortName : string;
  longName : string;
  startDate : option (Z * Z * Z)
}.

Definition termsArray : list Term := [
  mkTerm "2023 Fall" "2023 Fall Quarter" (Some (2023, 8, 28));
  mkTerm "2023 Summer2" "2023 Summer Session 2" (Some (2023, 7, 7));
  mkTerm "2023 Summer10wk" "2023 10-wk Summer" (Some (2023, 5, 26));
  mkTerm "2023 Summer1" "2023 Summer Session 1" (Some (2023, 5, 26));
  mkTerm "2023 Spring" "2023 Spring Quarter" (Some (2023, 3, 3));
  mkTerm "2023 Winter" "2023 Winter Quarter" (Some (2023, 0, 9));
  mkTerm "2022 Fall" "2022 Fall Quarter" (Some (2022, 8, 22));
  mkTerm "2022 Summer2" "2022 Summer Session 2" (Some (2022, 7, 1));
  mkTerm "2022 Summer10wk" "2022 10-wk Summer" (Some (2022, 5, 20));
  mkTerm "2022 Summer1" "2022 Summer Session 1" (Some (2022, 5, 20));
  mkTerm "2022 Spring" "2022 Spring Quarter" (Some (2022, 2, 28));
  mkTerm "2022 Winter" "2022 Winter Quarter" (Some (2022, 0, 3));
  mkTerm "2021 Fall" "2021 Fall Quarter" (Some (2021, 8, 23));
  mkTerm "2021 Summer2" "2021 Summer Session 2" None;
  mkTerm "2021 Summer10wk" "2021 10-wk Summer" None;
  mkTerm "2021 Summer1" "2021 Summer Session 1" None;
  mkTerm "2021 Spring" "2021 Spring Quarter" (Some (2021, 2, 29));
  mkTerm "2021 Winter" "2021 Winter Quarter" (Some (2021, 0, 4));
  mkTerm "2020 Fall" "2020 Fall Quarter" (Some (2020, 9, 1));
  mkTerm "2020 Summer2" "2020 Summer Session 2" None;
  mkTerm "2020 Summer10wk" "2020 10-wk Summer" None;
  mkTerm "2020 Summer1" "2020 Summer Session 1" None;
  mkTerm "2020 Spring" "2020 Spring Quarter" (Some (2020, 2, 30));
  mkTerm "2020 Winter" "2020 Winter Quarter" (Some (2020, 0, 6));
  mkTerm "2019 Fall" "2019 Fall Quarter" (Some (2019, 8, 26));
  mkTerm "2019 Summer2" "2019 Summer Session 2" None;
  mkTerm "2019 Summer10wk" "2019 10-wk Summer" None;
  mkTerm "2019 Summer1" "2019 Summer Session 1" None;
  mkTerm "2019 Spring" "2019 Spring Quarter" None;
  mkTerm "2019 Winter" "2019 Winter Quarter" None;
  mkTerm "2018 Fall" "2018 Fall Quarter" None;
  mkTerm "2018 Summer2" "2018 Summer Session 2" None;
  mkTerm "2018 Summer10wk" "2018 10-wk Summer" None;
  mkTerm "2018 Summer1" "2018 Summer Session 1" None;
  mkTerm "2018 Spring" "2018 Spring Quarter" None;
  mkTerm "2018 Winter" "2018 Winter Quarter" None;
  mkTerm "2017 Fall" "2017 Fall Quarter" None;
  mkTerm "2017 Summer2" "2017 Summer Session 2" None;
  mkTerm "2017 Summer10wk" "2017 10-wk Summer" None;
  mkTerm "2017 Summer1" "2017 Summer Session 1" None;
  mkTerm "2017 Spring" "2017 Spring Quarter" None;
  mkTerm "2017 Winter" "2017 Winter Quarter" None;
  mkTerm "2016 Fall" "2016 Fall Quarter" None;
  mkTerm "2016 Summer2" "2016 Summer Session 2" None;
  mkTerm "2016 Summer10wk" "2016 10-wk Summer" None;
  mkTerm "2016 Summer1" "2016 Summer Session 1" None;
  mkTerm "2016 Spring" "2016 Spring Quarter" None;
  mkTerm "2016 Winter" "2016 Winter Quarter" None;
  mkTerm "2015 Fall" "2015 Fall Quarter" None;
  mkTerm "2015 Summer2" "2015 Summer Session 2" None;
  mkTerm "2015 Summer10wk" "2015 10-wk Summer" None;
  mkTerm "2015 Summer1" "2015 Summer Session 1" None;
  mkTerm "2015 Spring" "2015 Spring Quarter" None;
  mkTerm "2015 Winter" "2015 Winter Quarter" None;
  mkTerm "2014 Fall" "2014 Fall Quarter" None
].

(** [[...termsArray.map((term) => term.shortName), 'Multiple Terms', 'Any Term']] *)
Definition termNamesArray : list string :=
  (shortName <$> termsArray) ++ ["Multiple Terms"; "Any Term"].

(** [type(enumerate(termNamesArray))] *)
Definition TermNamesSchema : string -> string + Arktype.Problems :=
  Arktype.type (Arktype.enumerate termNamesArray).

End Terms.

(** *** Reading a short name

    A short name is a year, a space and a session label.  The definitions
    below read the two components back; they are used to state the order of
    the table. *)

Module TermOrder.
Import Terms.

Inductive Session : Type :=
| Fall | Summer2 | Summer10wk | Summer1 | Spring | Winter.

#[global] Instance Session_eq_dec : EqDecision Session.
Proof. solve_decision. Defined.

(** The sessions of one year, newest first. *)
Definition sessions : list Session :=
  [Fall; Summer2; Summer10wk; Summer1; Spring; Winter].

Definition session_label (s : Session) : string :=
  match s with
  | Fall => "Fall"
  | Summer2 => "Summer2"
  | Summer10wk => "Summer10wk"
  | Summer1 => "Summer1"
  | Spring => "Spring"
  | Winter => "Winter"
  end.

(** Position of a session in [sessions]. *)
Definition session_rank (s : Session) : nat :=
  match s with
  | Fall => 0
  | Summer2 => 1
  | Summer10wk => 2
  | Summer1 => 3
  | Spring => 4
  | Winter => 5
  end%nat.

Definition session_of_label (l : string) : option Session :=
  list_find (fun s => session_label s = l) sessions ≫= fun p => Some p.2.

Definition digit (c : Ascii.ascii) : option N :=
  let n := N_of_ascii c in
  if ((48 <=? n) && (n <=? 57))%N then Some (n - 48)%N else None.

Fixpoint digits (acc : N) (s : string) : option N :=
  match s with
  | EmptyString => Some acc
  | String c rest => digit c ≫= fun d => digits (10 * acc + d)%N rest
  end.

Definition decimal (s : string) : option N :=
  match s with
  | EmptyString => None
  | _ => digits 0%N s
  end.

(** The text before and after the first space. *)
Fixpoint split_space (s : string) : option (string * string) :=
  match s with
  | EmptyString => None
  | String c rest =>
      if bool_decide (c = " "%char) then Some (EmptyString, rest)
      else split_space rest ≫= fun p => Some (String c p.1, p.2)
  end.

Definition components (name : string) : option (N * Session) :=
  split_space name ≫= fun p =>
  decimal p.1 ≫= fun y =>
  session_of_label p.2 ≫= fun s => Some (y, s).

Definition year_of (t : Term) : option N := fst <$> components (shortName t).
Definition session_of (t : Term) : option Session := snd <$> components (shortName t).

(** [newer a b]: [a] is listed before [b] in reverse chronological order:
    a later year, or the same year and an earlier place in [sessions]. *)
Definition newer (a b : Term) : Prop :=
  match components (shortName a), components (shortName b) with
  | Some (ya, sa), Some (yb, sb) =>
      (yb < ya)%N \/ (yb = ya /\ (session_rank sa < session_rank sb)%nat)
  | _, _ => False
  end.

#[global] Instance newer_dec : RelDecision newer.
Proof.
  intros a b. unfold newer.
  destruct (components (shortName a)) as [[ya sa]|];
    destruct (components (shortName b)) as [[yb sb]|]; apply _.
Defined.

End TermOrder.

(** *** Start dates and long names

    What the table says besides the short names: the long name of a term
    and, for the recent terms, the day on which instruction starts. *)

Module TermDates.
Import Terms TermOrder.

Definition leap_year (year : Z) : bool :=
  ((year mod 4 =? 0) && negb (year mod 100 =? 0)) || (year mod 400 =? 0).

(** The days of a month, the months being counted from 0 as in [startDate]. *)
Definition days_in_month (year monthIndex : Z) : Z :=
  match monthIndex with
  | 0 => 31
  | 1 => if leap_year year then 29 else 28
  | 2 => 31
  | 3 => 30
  | 4 => 31
  | 5 => 30
  | 6 => 31
  | 7 => 31
  | 8 => 30
  | 9 => 31
  | 10 => 30
  | 11 => 31
  | _ => 0
  end.

(** [[year, monthIndex, day]] is a day of the calendar. *)
Definition valid_date (date : Z * Z * Z) : Prop :=
  0 <= date.1.2 <= 11 /\ 1 <= date.2 <= days_in_month date.1.1 date.1.2.

(** [date_le a b]: the day [a] is the day [b] or an earlier one. *)
Definition date_le (a b : Z * Z * Z) : Prop :=
  a.1.1 < b.1.1
  \/ (a.1.1 = b.1.1 /\ (a.1.2 < b.1.2 \/ (a.1.2 = b.1.2 /\ a.2 <= b.2))).

(** The wording of a session in a long name. *)
Definition long_label (s : Session) : string :=
  match s with
  | Fall => "Fall Quarter"
  | Summer2 => "Summer Session 2"
  | Summer10wk => "10-wk Summer"
  | Summer1 => "Summer Session 1"
  | Spring => "Spring Quarter"
  | Winter => "Winter Quarter"
  end.

(** The long name that goes with a short name: the same year, and the
    session in its long wording. *)
Definition long_name_of (short : string) : option string :=
  split_space short ≫= fun p =>
  session_of_label p.2 ≫= fun s =>
  Some (String.append p.1 (String.append " " (long_label s))).

(** [starts_no_earlier a b]: when both terms have a start date, that of [a]
    is that of [b] or a later day. *)
Definition starts_no_earlier (a b : Term) : Prop :=
  match startDate a, startDate b with
  | Some da, Some db => date_le db da
  | _, _ => True
  end.

#[global] Instance date_le_dec : RelDecision date_le.
Proof. intros a b. unfold date_le. apply _. Defined.

#[global] Instance starts_no_earlier_dec : RelDecision starts_no_earlier.
Proof.
  intros a b. unfold starts_no_earlier.
  destruct (startDate a), (startDate b); apply _.
Defined.

End TermDates.

(* ===================================================================== *)
(** ** The store's event interface *)
(* ===================================================================== *)

Module EventEmitter.

(** The store is defined outside of the two files embedded here.  The spec
    describes it as "a single-writer, many-reader broadcast object" to whose
    "named change events" components subscribe and from which they
    unsubscribe by name.  The registry maps an event name to the callbacks
    subscribed to it, in the order of subscription; a callback may be
    subscribed more than once. *)
Section Registry.
Context {Listener : Type} `{EqDecision Listener}.

Definition listeners (m : gmap string (list Listener)) (name : string) : list Listener :=
  default [] (m !! name).

(** Modelled from the spec: [AppStore.on] subscribes a callback to an event
    name; the callback is added after those already subscribed. *)
Definition on (name : string) (f : Listener) (m : gmap string (list Listener))
  : gmap string (list Listener) :=
  <[name := listeners m name ++ [f]]> m.

Fixpoint remove_first (f : Listener) (l : list Listener) : list Listener :=
  match l with
  | [] => []
  | x :: rest => if decide (x = f) then rest else x :: remove_first f rest
  end.

Definition remove_last (f : Listener) (l : list Listener) : list Listener :=
  reverse (remove_first f (reverse l)).

(** Modelled from the spec: [AppStore.off] unsubscribes a callback from an
    event name: its most recent subscription is removed, if there is one, and
    an event name with no callback left is forgotten. *)
Definition off (name : string) (f : Listener) (m : gmap string (list Listener))
  : gmap string (list Listener) :=
  match m !! name with
  | None => m
  | Some l =>
      match remove_last f l with
      | [] => delete name m
      | l' => <[name := l']> m
      end
  end.

(** No event name is kept without a callback. *)
Definition well_formed (m : gmap string (list Listener)) : Prop :=
  forall name, m !! name <> Some [].
End Registry.

End EventEmitter.

(* ===================================================================== *)
(** ** apps/antalmanac/src/components/Calendar/CalendarToolbar.tsx *)
(* ===================================================================== *)

Module CalendarToolbar.
Import EventEmitter.

(** *** Collaborators *)

Inductive AnalyticsCategory : Type := calendar_title.

Inductive AnalyticsAction : Type :=
| CHANGE_SCHEDULE | UNDO | CLEAR_SCHEDULE | DISPLAY_FINALS.

Record AnalyticsEvent := { category : AnalyticsCategory; action : AnalyticsAction }.

#[global] Instance AnalyticsCategory_eq_dec : EqDecision AnalyticsCategory.
Proof. solve_decision. Defined.
#[global] Instance AnalyticsAction_eq_dec : EqDecision AnalyticsAction.
Proof. solve_decision. Defined.
#[global] Instance AnalyticsEvent_eq_dec : EqDecision AnalyticsEvent.
Proof. solve_decision. Defined.

(** The calls the toolbar makes to its collaborators: the analytics module,
    the store actions of [AppStoreActions], and the callback the parent
    passes as [toggleDisplayFinalsSchedule]. *)
Inductive Call : Type :=
| logAnalytics (event : AnalyticsEvent)
| changeCurrentSchedule (index : Z)
| clearSchedules
| undoDelete
| toggleDisplayFinalsSchedule.

#[global] Instance Call_eq_dec : EqDecision Call.
Proof. solve_decision. Defined.

(** [Map<string, [number, string][]>], in iteration order: a term and its
    (index, name) pairs. *)
Definition ScheduleMap : Type := list (string * list (Z * string)).

(** What is outside of the toolbar: the store with its getters, the effect
    of each call, the events the store emits during a call (each with the
    store as the listeners of that event read it), and the answer of the
    user to a [window.confirm] prompt.  All of it is defined outside of
    CalendarToolbar.tsx, so the handlers are defined over any such
    environment. *)
Class External (Ext : Type) := {
  getCurrentScheduleIndex : Ext -> Z;
  getTermToScheduleMap : Ext -> ScheduleMap;
  getNumberOfSchedules : Ext -> Z;
  perform : Call -> Ext -> Ext;
  emitted : Call -> Ext -> list (string * Ext);
  window_confirm : string -> Ext -> bool
}.

(** *** SelectSchedulePopover: state, callbacks, subscriptions *)

Definition HTMLElement : Type := positive.

Record PopoverState := {
  currentScheduleIndex : Z;
  anchorEl : option HTMLElement;
  scheduleMap : ScheduleMap
}.

(** [Boolean(anchorEl)] *)
Definition open (st : PopoverState) : bool :=
  match anchorEl st with Some _ => true | None => false end.

(** The inner loop of [currentScheduleName]: the first pair of a term
    whose index is the current one. *)
Fixpoint find_schedule_name (schedulePairs : list (Z * string)) (current : Z) : option string :=
  match schedulePairs with
  | [] => None
  | (index, scheduleName) :: rest =>
      if bool_decide (index = current) then Some scheduleName
      else find_schedule_name rest current
  end.

(** The outer loop, over [scheduleMap.values()]. *)
Fixpoint find_in_values (values : list (list (Z * string))) (current : Z) : option string :=
  match values with
  | [] => None
  | schedulePairs :: rest =>
      match find_schedule_name schedulePairs current with
      | Some scheduleName => Some scheduleName
      | None => find_in_values rest current
      end
  end.

(** The callback given to [useMemo] for [currentScheduleName]: the name it
    computes from the map and the index it reads.  When the component runs
    it is the matter of [useMemo] and [render_popover] below. *)
Definition currentScheduleName (scheduleMap : ScheduleMap) (currentScheduleIndex : Z) : string :=
  match find_in_values (snd <$> scheduleMap) currentScheduleIndex with
  | Some scheduleName => scheduleName
  | None => "N/A"
  end.

Definition handleClick (currentTarget : HTMLElement) (st : PopoverState) : PopoverState :=
  {| currentScheduleIndex := currentScheduleIndex st;
     anchorEl := Some currentTarget;
     scheduleMap := scheduleMap st |}.

Definition handleClose (st : PopoverState) : PopoverState :=
  {| currentScheduleIndex := currentScheduleIndex st;
     anchorEl := None;
     scheduleMap := scheduleMap st |}.

Definition handleScheduleIndexChange `{External Ext} (store : Ext) (st : PopoverState)
  : PopoverState :=
  {| currentScheduleIndex := getCurrentScheduleIndex store;
     anchorEl := anchorEl st;
     scheduleMap := scheduleMap st |}.

Definition handleScheduleNamesChange `{External Ext} (store : Ext) (st : PopoverState)
  : PopoverState :=
  {| currentScheduleIndex := currentScheduleIndex st;
     anchorEl := anchorEl st;
     scheduleMap := getTermToScheduleMap store |}.

(** The body of the effect: five subscriptions. *)
Definition subscribe {Listener : Type}
    (handleScheduleIndexChange handleScheduleNamesChange : Listener)
    (m : gmap string (list Listener)) : gmap string (list Listener) :=
  let m := on "addedCoursesChange" handleScheduleIndexChange m in
  let m := on "customEventsChange" handleScheduleIndexChange m in
  let m := on "colorChange" handleScheduleIndexChange m in
  let m := on "currentScheduleIndexChange" handleScheduleIndexChange m in
  on "scheduleNamesChange" handleScheduleNamesChange m.

(** The function the effect returns, run on teardown. *)
Definition unsubscribe {Listener : Type} `{EqDecision Listener}
    (handleScheduleIndexChange handleScheduleNamesChange : Listener)
    (m : gmap string (list Listener)) : gmap string (list Listener) :=
  let m := off "addedCoursesChange" handleScheduleIndexChange m in
  let m := off "customEventsChange" handleScheduleIndexChange m in
  let m := off "colorChange" handleScheduleIndexChange m in
  let m := off "currentScheduleIndexChange" handleScheduleIndexChange m in
  off "scheduleNamesChange" handleScheduleNamesChange m.

(** The two callbacks of one mounted popover, as the store holds them. *)
Inductive Callback : Type :=
| HandleScheduleIndexChange
| HandleScheduleNamesChange.

#[global] Instance Callback_eq_dec : EqDecision Callback.
Proof. solve_decision. Defined.

Definition run_callback `{External Ext} (store : Ext) (st : PopoverState) (cb : Callback)
  : PopoverState :=
  match cb with
  | HandleScheduleIndexChange => handleScheduleIndexChange store st
  | HandleScheduleNamesChange => handleScheduleNamesChange store st
  end.

(** The reaction of a mounted popover to one emitted event: the callbacks
    it subscribed to that event run, in order, on the store of that time. *)
Definition react `{External Ext} (st : PopoverState) (ev : string * Ext) : PopoverState :=
  foldl (run_callback ev.2) st
    (listeners (subscribe HandleScheduleIndexChange HandleScheduleNamesChange ∅) ev.1).

(** *** Handlers as state transformers *)

(** The world of a handler: the environment, the calls made so far, in
    order, and the state of the mounted popover. *)
Record World (Ext : Type) := {
  ext : Ext;
  calls : list Call;
  popover : PopoverState
}.
#[global] Arguments ext {Ext} _.
#[global] Arguments calls {Ext} _.
#[global] Arguments popover {Ext} _.

Definition M (Ext A : Type) : Type := World Ext -> A * World Ext.

Definition ret {Ext A} (a : A) : M Ext A := fun w => (a, w).

Definition bind {Ext A B} (m : M Ext A) (k : A -> M Ext B) : M Ext B :=
  fun w => let (a, w') := m w in k a w'.

Definition exec {Ext A} (m : M Ext A) (w : World Ext) : World Ext := (m w).2.

(** A call to a collaborator: it is recorded, the environment moves on and
    the events the store emits reach the popover before the call returns. *)
Definition call `{External Ext} (c : Call) : M Ext unit :=
  fun w =>
    (tt, {| ext := perform c (ext w);
            calls := calls w ++ [c];
            popover := foldl react (popover w) (emitted c (ext w)) |}).

Definition confirm `{External Ext} (message : string) : M Ext bool :=
  fun w => (window_confirm message (ext w), w).

#[global] Instance M_ret {Ext} : MRet (M Ext) := fun A => ret.
#[global] Instance M_bind {Ext} : MBind (M Ext) := fun A B k m => bind m k.

Definition handleScheduleChange `{External Ext} (index : Z) : M Ext unit :=
  call (logAnalytics {| category := calendar_title; action := CHANGE_SCHEDULE |}) ;;
  call (changeCurrentSchedule index).

(** The click handler of the schedule entry with the given index. *)
Definition createScheduleSelector `{External Ext} (index : Z) : unit -> M Ext unit :=
  fun _ => handleScheduleChange index.

Definition handleUndo `{External Ext} : M Ext unit :=
  call (logAnalytics {| category := calendar_title; action := UNDO |}) ;;
  call undoDelete.

Definition handleClearSchedule `{External Ext} : M Ext unit :=
  yes ← confirm "Are you sure you want to clear this schedule?";
  if yes : bool then
    call clearSchedules ;;
    call (logAnalytics {| category := calendar_title; action := CLEAR_SCHEDULE |})
  else mret tt.

(** [handleToggleFinals] of [CalendarPaneToolbar], over the callback the
    parent passes in its props. *)
Definition handleToggleFinals `{External Ext} (toggleDisplayFinalsSchedule : M Ext unit)
  : M Ext unit :=
  call (logAnalytics {| category := calendar_title; action := DISPLAY_FINALS |}) ;;
  toggleDisplayFinalsSchedule.

(** *** Buttons *)

(** A button of the UI framework, as far as the toolbar relies on it: a
    click runs [onClick] unless the button is disabled. *)
Record IconButton (S : Type) := {
  onClick : S -> S;
  disabled : bool
}.
#[global] Arguments onClick {S} _ _.
#[global] Arguments disabled {S} _.

Definition click {S : Type} (b : IconButton S) (s : S) : S :=
  if disabled b then s else onClick b s.

Module DeleteScheduleButton.
(** The state of the component: whether its delete dialog is open. *)
Definition handleOpen (open : bool) : bool := true.
Definition handleClose (open : bool) : bool := false.

(** The button rendered for one schedule, on the store read at render. *)
Definition render `{External Ext} (store : Ext) : IconButton bool :=
  {| onClick := handleOpen;
     disabled := bool_decide (getNumberOfSchedules store = 1) |}.
End DeleteScheduleButton.

(** The schedule entries the popover lists: every (index, name) pair of
    every term, in order. *)
Definition entries (st : PopoverState) : list (Z * string) :=
  concat (snd <$> scheduleMap st).

(** The select buttons the popover renders, one per entry: the index and
    the name of the entry and the [onClick] of its button. *)
Definition schedule_buttons `{External Ext} (st : PopoverState)
  : list (Z * string * (unit -> M Ext unit)) :=
  (fun '(scheduleIndex, scheduleName) =>
     (scheduleIndex, scheduleName, createScheduleSelector scheduleIndex)) <$> entries st.

(** *** The three actions of the toolbar *)

Inductive ToolbarAction : Type :=
| UndoLastDelete
| ClearCurrentSchedule
| ToggleFinalsView.

Definition toolbar_onClick `{External Ext} (a : ToolbarAction) : M Ext unit :=
  match a with
  | UndoLastDelete => handleUndo
  | ClearCurrentSchedule => handleClearSchedule
  | ToggleFinalsView => handleToggleFinals (call toggleDisplayFinalsSchedule)
  end.

(** An action is skipped when it asks for a confirmation and the user
    declines. *)
Definition skipped `{External Ext} (a : ToolbarAction) (w : World Ext) : bool :=
  match a with
  | ClearCurrentSchedule =>
      negb (window_confirm "Are you sure you want to clear this schedule?" (ext w))
  | _ => false
  end.

Definition is_analytics (c : Call) : bool :=
  match c with logAnalytics _ => true | _ => false end.

(** [analytics_then_mutation before after]: the calls made since [before]
    are one analytics report followed by one other call. *)
Definition analytics_then_mutation (before after : list Call) : Prop :=
  exists event c, is_analytics c = false /\ after = before ++ [logAnalytics event; c].

(** *** Events on the buttons and on the popover *)

(** The delete button of a schedule between two renderings: the button as
    it was last rendered, and whether its dialog is open. *)
Record DeleteScheduleButtonState := {
  button : IconButton bool;
  dialog : bool
}.

(** What can happen to the delete button of a schedule: the component is
    rendered again and reads the store of that time, the button is clicked,
    or the dialog asks to be closed ([onClose]). *)
Inductive DialogEvent (Ext : Type) : Type :=
| Rendered (store : Ext)
| ButtonClick
| DialogClose.
#[global] Arguments Rendered {Ext} _.
#[global] Arguments ButtonClick {Ext}.
#[global] Arguments DialogClose {Ext}.

(** The first rendering: the dialog is closed ([useState(false)]). *)
Definition DeleteScheduleButton_mount `{External Ext} (store : Ext) : DeleteScheduleButtonState :=
  {| button := DeleteScheduleButton.render store; dialog := false |}.

(** One event on the delete button.  A click is a click on the button of the
    last rendering: the number of schedules is read when the component
    renders, not when its button is clicked. *)
Definition DeleteScheduleButton_step `{External Ext} (st : DeleteScheduleButtonState)
    (ev : DialogEvent Ext) : DeleteScheduleButtonState :=
  match ev with
  | Rendered store =>
      {| button := DeleteScheduleButton.render store; dialog := dialog st |}
  | ButtonClick =>
      {| button := button st; dialog := click (button st) (dialog st) |}
  | DialogClose =>
      {| button := button st; dialog := DeleteScheduleButton.handleClose (dialog st) |}
  end.

(** The select button of an entry is shown as selected when
    [scheduleIndex === currentScheduleIndex]. *)
Definition selected (st : PopoverState) (scheduleIndex : Z) : bool :=
  bool_decide (scheduleIndex = currentScheduleIndex st).

(** What can happen to a mounted popover: a click on its button, the
    popover asking to be closed ([onClose]), or an event of the store, with
    the store as its listeners read it. *)
Inductive PopoverEvent (Ext : Type) : Type :=
| Clicked (currentTarget : HTMLElement)
| Closed
| Emitted (name : string) (store : Ext).
#[global] Arguments Clicked {Ext} _.
#[global] Arguments Closed {Ext}.
#[global] Arguments Emitted {Ext} _ _.

Definition popover_step `{External Ext} (st : PopoverState) (ev : PopoverEvent Ext)
  : PopoverState :=
  match ev with
  | Clicked currentTarget => handleClick currentTarget st
  | Closed => handleClose st
  | Emitted name store => react st (name, store)
  end.

Definition is_ui_event {Ext} (ev : PopoverEvent Ext) : bool :=
  match ev with Emitted _ _ => false | _ => true end.

(** The events on which the popover reads the current index again. *)
Definition refreshes_index {Ext} (ev : PopoverEvent Ext) : bool :=
  match ev with
  | Emitted name _ =>
      bool_decide (name ∈ ["addedCoursesChange"; "customEventsChange"; "colorChange";
                           "currentScheduleIndexChange"])
  | _ => false
  end.

(** The event on which the popover reads the schedule map again. *)
Definition refreshes_names {Ext} (ev : PopoverEvent Ext) : bool :=
  match ev with
  | Emitted name _ => bool_decide (name = "scheduleNamesChange")
  | _ => false
  end.

(** *** The name on the button of the popover *)

(** The cell of a [useMemo]: the dependencies of the last computation and
    its value. *)
Record MemoCell (D V : Type) := { deps : D; value : V }.
#[global] Arguments deps {D V} _.
#[global] Arguments value {D V} _.

(** [useMemo(factory, dependencies)] of the UI framework: on the first
    rendering, and when the dependencies differ from those of the previous
    rendering, [factory] is run; otherwise the previous value is kept. *)
Definition useMemo {D V : Type} `{EqDecision D}
    (previous : option (MemoCell D V)) (factory : unit -> V) (dependencies : D)
  : MemoCell D V :=
  match previous with
  | Some cell =>
      if decide (deps cell = dependencies) then cell
      else {| deps := dependencies; value := factory tt |}
  | None => {| deps := dependencies; value := factory tt |}
  end.

(** A rendering of the popover: the state it was rendered with and the cell
    of [currentScheduleName]. *)
Record Rendering := {
  held : PopoverState;
  nameCell : MemoCell Z string
}.

(** The body of [SelectSchedulePopover], as far as the name is concerned:
    the callback reads [scheduleMap] and [currentScheduleIndex], and the
    dependency list is [[currentScheduleIndex]]. *)
Definition render_popover (previous : option (MemoCell Z string)) (st : PopoverState)
  : Rendering :=
  {| held := st;
     nameCell :=
       useMemo previous
         (fun _ => currentScheduleName (scheduleMap st) (currentScheduleIndex st))
         (currentScheduleIndex st) |}.

(** The text of the button: [{currentScheduleName}]. *)
Definition displayedName (r : Rendering) : string := value (nameCell r).

(** The first rendering: the state is read from the store and there is no
    anchor. *)
Definition mount `{External Ext} (store : Ext) : Rendering :=
  render_popover None
    {| currentScheduleIndex := getCurrentScheduleIndex store;
       anchorEl := None;
       scheduleMap := getTermToScheduleMap store |}.

(** The next rendering, after the events handled since the last one. *)
Definition rerender `{External Ext} (r : Rendering) (batch : list (PopoverEvent Ext))
  : Rendering :=
  render_popover (Some (nameCell r)) (foldl popover_step (held r) batch).

(** The rendering reached from the first one through batches of events. *)
Definition run `{External Ext} (store : Ext) (batches : list (list (PopoverEvent Ext)))
  : Rendering :=
  foldl rerender (mount store) batches.

(** *** A small environment

    A store with a current index, the schedules of its terms and a finals
    flag, and a user who always gives the same answer.  The examples run
    the handlers on it. *)
Module Fixture.
Record State := {
  current : Z;
  schedules : ScheduleMap;
  finals : bool;
  answer : bool
}.

Definition step (c : Call) (s : State) : State :=
  match c with
  | changeCurrentSchedule index =>
      {| current := index; schedules := schedules s; finals := finals s; answer := answer s |}
  | toggleDisplayFinalsSchedule =>
      {| current := current s; schedules := schedules s; finals := negb (finals s);
         answer := answer s |}
  | _ => s
  end.

Definition events (c : Call) (s : State) : list (string * State) :=
  match c with
  | changeCurrentSchedule _ => [("currentScheduleIndexChange", step c s)]
  | clearSchedules => [("addedCoursesChange", s); ("customEventsChange", s)]
  | undoDelete => [("addedCoursesChange", s)]
  | _ => []
  end.

#[global] Instance external : External State := {|
  getCurrentScheduleIndex := current;
  getTermToScheduleMap := schedules;
  getNumberOfSchedules := fun s => Z.of_nat (length (concat (snd <$> schedules s)));
  perform := step;
  emitted := events;
  window_confirm := fun _ s => answer s
|}.

Definition two_schedules : ScheduleMap :=
  [("2023 Fall", [(0, "Schedule 1")]); ("2023 Spring", [(1, "Schedule 2")])].

Definition one_schedule : ScheduleMap :=
  [("2023 Fall", [(0, "Schedule 1")])].

(** [one_schedule] after its schedule has been renamed. *)
Definition renamed : ScheduleMap :=
  [("2023 Fall", [(0, "Renamed")])].

Definition state (m : ScheduleMap) (yes : bool) : State :=
  {| current := 0; schedules := m; finals := false; answer := yes |}.

(** A world in which the popover is open on the button [1]. *)
Definition world (m : ScheduleMap) (yes : bool) : World State :=
  {| ext := state m yes;
     calls := [];
     popover := {| currentScheduleIndex := 0; anchorEl := Some 1%positive; scheduleMap := m |} |}.
End Fixture.

End CalendarToolbar.

(* ===================================================================== *)
(** ** apps/antalmanac/src/components/AppBar/CustomAppBar.tsx *)
(* ===================================================================== *)

Module CustomAppBar.

(** The menu triggers of the bar. *)
Inductive Component : Type :=
| SettingsMenu
| ImportStudyList
| Feedback
| News
| AboutPage.

#[global] Instance Component_eq_dec : EqDecision Component.
Proof. solve_decision. Defined.

(** The [key] each trigger is given in [components]. *)
Definition key (c : Component) : string :=
  match c with
  | SettingsMenu => "settings"
  | ImportStudyList => "studylist"
  | Feedback => "feedback"
  | News => "news"
  | AboutPage => "about"
  end.

Definition components : list Component :=
  [SettingsMenu; ImportStudyList; Feedback; News; AboutPage].

Definition Element : Type := positive.

Definition handleClick (currentTarget : Element) (anchorEl : option Element) : option Element :=
  Some currentTarget.

Definition handleClose (anchorEl : option Element) : option Element := None.

(** [<MenuItem key={index}>{element}</MenuItem>] *)
Record MenuItem := { index : nat; element : Component }.

(** The children of the toolbar of the bar. *)
Inductive Child : Type :=
| MobileLogo (height : Z)
| Logo (height : Z)
| Spacer
| LoadSaveScheduleFunctionality
| MenuIcon
| Menu (anchorEl : option Element) (keepMounted open : bool) (items : list MenuItem)
| Inline (c : Component).

(** What the bar renders, for the answer of the media query
    [(max-width:750px)] and the anchor of its menu. *)
Definition render (isMobileScreen : bool) (anchorEl : option Element) : list Child :=
  [if isMobileScreen then MobileLogo 32 else Logo 32;
   Spacer;
   LoadSaveScheduleFunctionality]
  ++ (if isMobileScreen
      then [MenuIcon;
            Menu anchorEl true (bool_decide (is_Some anchorEl))
              (imap (fun index element => {| index := index; element := element |})
                 components)]
      else Inline <$> components).

(** The menu triggers a rendering shows, inline or as menu items, in order. *)
Definition triggers (children : list Child) : list Component :=
  children ≫= fun child =>
    match child with
    | Inline c => [c]
    | Menu _ _ _ items => element <$> items
    | _ => []
    end.

End CustomAppBar.

(* ===================================================================== *)
(** * Properties of the term table *)
(* ===================================================================== *)

Section TermTable.
Import Terms TermOrder.

Lemma allows_enumerate (values : list string) (data : string) :
  Arktype.allows (Arktype.enumerate values) data = true <-> data ∈ values.
Proof.
  induction values as [|v rest IH]; simpl.
  - rewrite elem_of_nil. split; [discriminate | tauto].
  - rewrite orb_true_iff, bool_decide_eq_true, IH, elem_of_cons. tauto.
Qed.

Lemma type_enumerate_inl (values : list string) (data : string) :
  Arktype.type (Arktype.enumerate values) data = inl data <-> data ∈ values.
Proof.
  unfold Arktype.type. rewrite <- allows_enumerate.
  destruct (Arktype.allows _ data); split; intros H;
    (discriminate H || reflexivity).
Qed.

Lemma type_enumerate_inr (values : list string) (data : string) :
  Arktype.type (Arktype.enumerate values) data = inr (Arktype.ValidationError data)
  <-> data ∉ values.
Proof.
  unfold Arktype.type. rewrite <- allows_enumerate.
  destruct (Arktype.allows _ data); split; intros H; try discriminate H.
  - exfalso. apply H. reflexivity.
  - intros H'. discriminate H'.
  - reflexivity.
Qed.

Lemma elem_of_termNamesArray (s : string) :
  s ∈ termNamesArray <->
  (exists t, t ∈ termsArray /\ shortName t = s) \/ s = "Multiple Terms" \/ s = "Any Term".
Proof.
  unfold termNamesArray.
  rewrite elem_of_app, list_elem_of_fmap, elem_of_cons, list_elem_of_singleton.
  split.
  - intros [(t & -> & Ht) | H]; [left; eauto | right; exact H].
  - intros [(t & Ht & <-) | H]; [left; eauto | right; exact H].
Qed.

Lemma shortNames_NoDup : NoDup (shortName <$> termsArray).
Proof. apply (bool_decide_unpack _). vm_compute. reflexivity. Qed.

Lemma termsArray_sorted : StronglySorted newer termsArray.
Proof. apply (bool_decide_unpack _). vm_compute. reflexivity. Qed.

Lemma StronglySorted_lookup_lt {A} (R : relation A) (l : list A) (i j : nat) (a b : A) :
  StronglySorted R l -> (i < j)%nat -> l !! i = Some a -> l !! j = Some b -> R a b.
Proof.
  intros Hs. revert i j.
  induction Hs as [|x l Hs IH Hall]; intros i j Hij Hi Hj.
  - rewrite lookup_nil in Hi. discriminate.
  - destruct j as [|j]; [lia|]. simpl in Hj.
    destruct i as [|i]; simpl in Hi.
    + injection Hi as <-. rewrite Forall_forall in Hall.
      apply Hall. eapply list_elem_of_lookup_2. exact Hj.
    + apply (IH i j); [lia | assumption | assumption].
Qed.

Lemma newer_components (a b : Term) :
  newer a b ->
  exists ya sa yb sb,
    components (shortName a) = Some (ya, sa) /\
    components (shortName b) = Some (yb, sb) /\
    (yb <= ya)%N /\
    (yb = ya -> (session_rank sa < session_rank sb)%nat).
Proof.
  unfold newer.
  destruct (components (shortName a)) as [[ya sa]|]; [|tauto].
  destruct (components (shortName b)) as [[yb sb]|]; [|tauto].
  intros H. exists ya, sa, yb, sb. repeat split; [lia | intros ->; lia].
Qed.

(** C1. The schema accepts a string exactly when it is the short name of a
    term of the table or one of the labels "Multiple Terms" and "Any Term",
    and returns a validation error for every other string; every short name
    of the table is accepted and "Not A Term" is refused. *)
Theorem TermNamesSchema_accepts_exactly_term_names :
  (forall s : string,
      TermNamesSchema s = inl s <->
      ((exists t, t ∈ termsArray /\ shortName t = s)
       \/ s = "Multiple Terms" \/ s = "Any Term"))
  /\ (forall s : string,
      TermNamesSchema s = inr (Arktype.ValidationError s) <->
      ~ ((exists t, t ∈ termsArray /\ shortName t = s)
         \/ s = "Multiple Terms" \/ s = "Any Term"))
  /\ Forall (fun t => TermNamesSchema (shortName t) = inl (shortName t)) termsArray
  /\ TermNamesSchema "Not A Term" = inr (Arktype.ValidationError "Not A Term").
Proof.
  assert (Hacc : forall s, TermNamesSchema s = inl s <-> s ∈ termNamesArray)
    by (intros s; apply type_enumerate_inl).
  split; [|split; [|split]].
  - intros s. rewrite Hacc. apply elem_of_termNamesArray.
  - intros s. unfold TermNamesSchema. rewrite type_enumerate_inr.
    unfold not. rewrite elem_of_termNamesArray. reflexivity.
  - rewrite Forall_forall. intros t Ht. apply Hacc, elem_of_termNamesArray.
    left. eauto.
  - apply type_enumerate_inr. intros H. apply elem_of_termNamesArray in H.
    destruct H as [(t & Ht & Hs) | [H | H]]; [|discriminate H|discriminate H].
    assert (Hin : "Not A Term" ∈ (shortName <$> termsArray))
      by (rewrite <- Hs; apply list_elem_of_fmap_2, Ht).
    revert Hin. apply (bool_decide_unpack _). vm_compute. reflexivity.
Qed.

(** C2. The enumeration of term names has, as its elements, the short
    names of the table and the two labels "Multiple Terms" and "Any Term",
    and nothing else; both labels are in it, neither is a short name, and
    the enumeration is two entries longer than the table. *)
Theorem termNamesArray_is_shortNames_and_sentinels :
  (forall s : string,
      s ∈ termNamesArray <->
      ((exists t, t ∈ termsArray /\ shortName t = s)
       \/ s = "Multiple Terms" \/ s = "Any Term"))
  /\ "Multiple Terms" ∈ termNamesArray
  /\ "Any Term" ∈ termNamesArray
  /\ ("Multiple Terms" ∉ shortName <$> termsArray)
  /\ ("Any Term" ∉ shortName <$> termsArray)
  /\ length termNamesArray = (length termsArray + 2)%nat.
Proof.
  split; [exact elem_of_termNamesArray|].
  split; [apply elem_of_termNamesArray; auto|].
  split; [apply elem_of_termNamesArray; auto|].
  split; [apply (bool_decide_unpack _); vm_compute; reflexivity|].
  split; [apply (bool_decide_unpack _); vm_compute; reflexivity|].
  unfold termNamesArray. rewrite length_app. reflexivity.
Qed.

(** C3. Two entries at different places of the table have different short
    names. *)
Theorem termsArray_shortName_unique (i j : nat) (a b : Term) :
  termsArray !! i = Some a ->
  termsArray !! j = Some b ->
  i <> j ->
  shortName a <> shortName b.
Proof.
  intros Hi Hj Hne Heq. apply Hne.
  pose proof shortNames_NoDup as Hnd. rewrite NoDup_alt in Hnd.
  apply (Hnd i j (shortName a)); rewrite list_lookup_fmap.
  - rewrite Hi. reflexivity.
  - rewrite Hj, Heq. reflexivity.
Qed.

Lemma termsArray_shortName_unique_witness :
  shortName (mkTerm "2023 Fall" "2023 Fall Quarter" (Some (2023, 8, 28)))
  <> shortName (mkTerm "2023 Summer2" "2023 Summer Session 2" (Some (2023, 7, 7))).
Proof.
  apply (termsArray_shortName_unique 0 1); [reflexivity | reflexivity | discriminate].
Defined.

(** C10. The table is in reverse chronological order: it starts with
    "2023 Fall" and ends with "2014 Fall"; of two entries, the earlier one
    has the same or a later year, and when the years are equal its session
    comes first in the order Fall, Summer2, Summer10wk, Summer1, Spring,
    Winter; the enumeration of term names lists the short names at the same
    places. *)
Theorem termsArray_reverse_chronological :
  shortName <$> head termsArray = Some "2023 Fall"
  /\ shortName <$> last termsArray = Some "2014 Fall"
  /\ (forall (i j : nat) (a b : Term),
        (i < j)%nat -> termsArray !! i = Some a -> termsArray !! j = Some b ->
        exists ya sa yb sb,
          components (shortName a) = Some (ya, sa) /\
          components (shortName b) = Some (yb, sb) /\
          (yb <= ya)%N /\
          (yb = ya -> (session_rank sa < session_rank sb)%nat))
  /\ (forall s : Session, sessions !! session_rank s = Some s)
  /\ (forall (k : nat) (t : Term),
        termsArray !! k = Some t -> termNamesArray !! k = Some (shortName t)).
Proof.
  split; [reflexivity|]. split; [reflexivity|]. split; [|split].
  - intros i j a b Hij Hi Hj. apply newer_components.
    exact (StronglySorted_lookup_lt newer termsArray i j a b termsArray_sorted Hij Hi Hj).
  - intros []; reflexivity.
  - intros k t Hk. unfold termNamesArray.
    rewrite lookup_app_l.
    + rewrite list_lookup_fmap, Hk. reflexivity.
    + rewrite length_fmap. eapply lookup_lt_Some. exact Hk.
Qed.

End TermTable.

(* ===================================================================== *)
(** * Properties of the store's event registry *)
(* ===================================================================== *)

Section Subscriptions.
Import EventEmitter CalendarToolbar.
Context {Listener : Type} `{EqDecision Listener}.
Implicit Types (m : gmap string (list Listener)) (f : Listener) (l : list Listener).

Lemma remove_last_snoc f l : remove_last f (l ++ [f]) = l.
Proof.
  unfold remove_last. rewrite reverse_snoc. simpl.
  rewrite decide_True by reflexivity. apply reverse_involutive.
Qed.

Lemma listeners_on name f m k :
  listeners (on name f m) k =
  if decide (name = k) then listeners m k ++ [f] else listeners m k.
Proof.
  unfold on. unfold listeners at 1. case_decide as Hk.
  - subst k. rewrite lookup_insert_eq. reflexivity.
  - rewrite lookup_insert_ne by exact Hk. reflexivity.
Qed.

Lemma listeners_off name f m k :
  listeners (off name f m) k =
  if decide (name = k) then remove_last f (listeners m k) else listeners m k.
Proof.
  unfold off, listeners. case_decide as Hk.
  - subst k. destruct (m !! name) as [l|] eqn:Hl.
    + simpl. destruct (remove_last f l) as [|x l'] eqn:Hr.
      * rewrite lookup_delete_eq. reflexivity.
      * rewrite lookup_insert_eq. reflexivity.
    + rewrite Hl. reflexivity.
  - destruct (m !! name) as [l|] eqn:Hl; [|reflexivity].
    destruct (remove_last f l) as [|x l'].
    + rewrite lookup_delete_ne by exact Hk. reflexivity.
    + rewrite lookup_insert_ne by exact Hk. reflexivity.
Qed.

Lemma well_formed_on name f m : well_formed m -> well_formed (on name f m).
Proof.
  intros Hm k. unfold on. destruct (decide (name = k)) as [->|Hk].
  - rewrite lookup_insert_eq. intros [= Heq].
    destruct (listeners m k); discriminate Heq.
  - rewrite lookup_insert_ne by exact Hk. apply Hm.
Qed.

Lemma well_formed_off name f m : well_formed m -> well_formed (off name f m).
Proof.
  intros Hm k. unfold off. destruct (m !! name) as [l|] eqn:Hl; [|apply Hm].
  destruct (remove_last f l) as [|x l'] eqn:Hr.
  - destruct (decide (name = k)) as [->|Hk].
    + rewrite lookup_delete_eq. discriminate.
    + rewrite lookup_delete_ne by exact Hk. apply Hm.
  - destruct (decide (name = k)) as [->|Hk].
    + rewrite lookup_insert_eq. discriminate.
    + rewrite lookup_insert_ne by exact Hk. apply Hm.
Qed.

Lemma well_formed_ext m1 m2 :
  well_formed m1 -> well_formed m2 ->
  (forall k, listeners m1 k = listeners m2 k) -> m1 = m2.
Proof.
  intros H1 H2 Hl. apply map_eq. intros k.
  specialize (H1 k). specialize (H2 k). specialize (Hl k).
  unfold listeners in Hl.
  destruct (m1 !! k) as [[|x l1]|], (m2 !! k) as [[|y l2]|];
    simpl in Hl; congruence.
Qed.

(** Case analysis on an event name: one of the five, or another. *)
Ltac on_event k :=
  destruct (decide (k = "addedCoursesChange")) as [->|?];
  [|destruct (decide (k = "customEventsChange")) as [->|?];
    [|destruct (decide (k = "colorChange")) as [->|?];
      [|destruct (decide (k = "currentScheduleIndexChange")) as [->|?];
        [|destruct (decide (k = "scheduleNamesChange")) as [->|?]]]]].

(** For a given event name the comparisons of names evaluate. *)
Ltac by_evaluation :=
  repeat match goal with
    | |- context [listeners ?m ?k] => generalize (listeners m k); intro
    end;
  vm_compute; reflexivity.

(** The callbacks the effect adds for an event name. *)
Lemma listeners_subscribe (h1 h2 : Listener) m k :
  listeners (subscribe h1 h2 m) k =
  listeners m k ++
    (if bool_decide (k ∈ ["addedCoursesChange"; "customEventsChange"; "colorChange";
                          "currentScheduleIndexChange"])
     then [h1]
     else if bool_decide (k = "scheduleNamesChange") then [h2] else []).
Proof.
  unfold subscribe. rewrite !listeners_on.
  on_event k; [by_evaluation ..|].
  rewrite !decide_False by congruence.
  rewrite bool_decide_eq_false_2 by (rewrite !elem_of_cons, elem_of_nil; tauto).
  rewrite bool_decide_eq_false_2 by assumption.
  symmetry. apply app_nil_r.
Qed.

Lemma listeners_unsubscribe (h1 h2 : Listener) m k :
  listeners (unsubscribe h1 h2 m) k =
  if bool_decide (k ∈ ["addedCoursesChange"; "customEventsChange"; "colorChange";
                       "currentScheduleIndexChange"])
  then remove_last h1 (listeners m k)
  else if bool_decide (k = "scheduleNamesChange") then remove_last h2 (listeners m k)
       else listeners m k.
Proof.
  unfold unsubscribe. rewrite !listeners_off.
  on_event k; [by_evaluation ..|].
  rewrite !decide_False by congruence.
  rewrite bool_decide_eq_false_2 by (rewrite !elem_of_cons, elem_of_nil; tauto).
  rewrite bool_decide_eq_false_2 by assumption.
  reflexivity.
Qed.

Lemma listeners_unsubscribe_subscribe (h1 h2 : Listener) m k :
  listeners (unsubscribe h1 h2 (subscribe h1 h2 m)) k = listeners m k.
Proof.
  rewrite listeners_unsubscribe, listeners_subscribe.
  repeat case_bool_decide; rewrite ?remove_last_snoc, ?app_nil_r; reflexivity.
Qed.

(** C8. The effect of the popover subscribes its callbacks to the five
    events [addedCoursesChange], [customEventsChange], [colorChange],
    [currentScheduleIndexChange] and [scheduleNamesChange] and to no other;
    the teardown removes one subscription of the same callback from each of
    the same five; after the effect and its teardown every event has the
    callbacks it had before, and a registry that keeps no event without a
    callback is equal to what it was. *)
Theorem subscribe_then_unsubscribe_restores
    (handleScheduleIndexChange handleScheduleNamesChange : Listener)
    (m : gmap string (list Listener)) :
  (forall name,
      listeners (subscribe handleScheduleIndexChange handleScheduleNamesChange m) name =
      listeners m name ++
        (if bool_decide (name ∈ ["addedCoursesChange"; "customEventsChange"; "colorChange";
                                 "currentScheduleIndexChange"])
         then [handleScheduleIndexChange]
         else if bool_decide (name = "scheduleNamesChange")
              then [handleScheduleNamesChange] else []))
  /\ (forall name,
      listeners (unsubscribe handleScheduleIndexChange handleScheduleNamesChange m) name =
      if bool_decide (name ∈ ["addedCoursesChange"; "customEventsChange"; "colorChange";
                              "currentScheduleIndexChange"])
      then remove_last handleScheduleIndexChange (listeners m name)
      else if bool_decide (name = "scheduleNamesChange")
           then remove_last handleScheduleNamesChange (listeners m name)
           else listeners m name)
  /\ (forall name,
      listeners (unsubscribe handleScheduleIndexChange handleScheduleNamesChange
                   (subscribe handleScheduleIndexChange handleScheduleNamesChange m)) name
      = listeners m name)
  /\ (well_formed m ->
      unsubscribe handleScheduleIndexChange handleScheduleNamesChange
        (subscribe handleScheduleIndexChange handleScheduleNamesChange m) = m).
Proof.
  split; [intros; apply listeners_subscribe|].
  split; [intros; apply listeners_unsubscribe|].
  split; [intros; apply listeners_unsubscribe_subscribe|].
  intros Hm. apply well_formed_ext; [|exact Hm|].
  - unfold unsubscribe, subscribe.
    repeat apply well_formed_off. repeat apply well_formed_on. exact Hm.
  - intros k. apply listeners_unsubscribe_subscribe.
Qed.

End Subscriptions.

(* ===================================================================== *)
(** * Properties of the calendar toolbar *)
(* ===================================================================== *)

Section Toolbar.
Import EventEmitter CalendarToolbar.
Context `{External Ext}.
Implicit Types (w : World Ext) (st : PopoverState).

(** **** The name of the current schedule *)

Lemma find_schedule_name_app (l1 l2 : list (Z * string)) (current : Z) :
  find_schedule_name (l1 ++ l2) current =
  match find_schedule_name l1 current with
  | Some name => Some name
  | None => find_schedule_name l2 current
  end.
Proof.
  induction l1 as [|[index name] l1 IH]; simpl; [reflexivity|].
  case_bool_decide; [reflexivity | exact IH].
Qed.

Lemma find_in_values_concat (values : list (list (Z * string))) (current : Z) :
  find_in_values values current = find_schedule_name (concat values) current.
Proof.
  induction values as [|pairs values IH]; simpl; [reflexivity|].
  rewrite find_schedule_name_app, IH. reflexivity.
Qed.

Lemma elem_of_concat {A} (x : A) (ls : list (list A)) :
  x ∈ concat ls -> exists l, x ∈ l /\ l ∈ ls.
Proof.
  induction ls as [|l ls IH]; simpl.
  - intros Hx. apply elem_of_nil in Hx. contradiction.
  - rewrite elem_of_app. intros [Hx | Hx].
    + exists l. split; [exact Hx | left].
    + destruct (IH Hx) as (l' & Hl' & Hin). exists l'. split; [exact Hl' | right; exact Hin].
Qed.

Lemma find_schedule_name_None (l : list (Z * string)) (current : Z) :
  (forall index name, (index, name) ∈ l -> index <> current) ->
  find_schedule_name l current = None.
Proof.
  induction l as [|[index name] l IH]; simpl; intros Hl; [reflexivity|].
  rewrite bool_decide_eq_false_2.
  - apply IH. intros i n Hin. apply (Hl i n). right. exact Hin.
  - apply (Hl index name). left.
Qed.

Lemma find_schedule_name_first (l : list (Z * string)) (current : Z) (k : nat) (name : string) :
  l !! k = Some (current, name) ->
  (forall j p, (j < k)%nat -> l !! j = Some p -> p.1 <> current) ->
  find_schedule_name l current = Some name.
Proof.
  revert k. induction l as [|[index n] l IH]; intros k Hk Hbefore.
  - rewrite lookup_nil in Hk. discriminate.
  - simpl. destruct k as [|k]; simpl in Hk.
    + injection Hk as -> ->. rewrite bool_decide_eq_true_2 by reflexivity. reflexivity.
    + rewrite bool_decide_eq_false_2.
      * apply (IH k Hk). intros j p Hj Hp. apply (Hbefore (S j) p); [lia | exact Hp].
      * apply (Hbefore 0%nat (index, n)); [lia | reflexivity].
Qed.

(** **** Events leave the anchor of the popover alone *)

Lemma run_callback_anchorEl (store : Ext) st (cb : Callback) :
  anchorEl (run_callback store st cb) = anchorEl st.
Proof. destruct cb; reflexivity. Qed.

Lemma react_anchorEl st (ev : string * Ext) : anchorEl (react st ev) = anchorEl st.
Proof.
  unfold react. generalize (listeners (subscribe HandleScheduleIndexChange
                                         HandleScheduleNamesChange ∅) ev.1).
  intros cbs. revert st.
  induction cbs as [|cb cbs IH]; intros st; simpl; [reflexivity|].
  rewrite IH. apply run_callback_anchorEl.
Qed.

Lemma foldl_react_anchorEl st (evs : list (string * Ext)) :
  anchorEl (foldl react st evs) = anchorEl st.
Proof.
  revert st. induction evs as [|ev evs IH]; intros st; simpl; [reflexivity|].
  rewrite IH. apply react_anchorEl.
Qed.

Lemma call_calls (c : Call) w : calls (exec (call c) w) = calls w ++ [c].
Proof. reflexivity. Qed.

Lemma call_anchorEl (c : Call) w :
  anchorEl (popover (exec (call c) w)) = anchorEl (popover w).
Proof. unfold exec, call. simpl. apply foldl_react_anchorEl. Qed.

Lemma exec_seq (m1 m2 : M Ext unit) w : exec (m1 ;; m2) w = exec m2 (exec m1 w).
Proof.
  unfold exec, mbind, M_bind, bind. destruct (m1 w) as [[] w']. reflexivity.
Qed.

(** C4. The delete button of a schedule is disabled when the store reports
    exactly one schedule, and a click on it then leaves its dialog as it
    is; for every count above one the button is enabled and a click opens
    the dialog. *)
Theorem DeleteScheduleButton_disabled_iff_single (store : Ext) (dialog : bool) :
  (getNumberOfSchedules store = 1 ->
     disabled (DeleteScheduleButton.render store) = true
     /\ click (DeleteScheduleButton.render store) dialog = dialog)
  /\ (1 < getNumberOfSchedules store ->
     disabled (DeleteScheduleButton.render store) = false
     /\ click (DeleteScheduleButton.render store) dialog = true).
Proof.
  unfold click, DeleteScheduleButton.render; simpl. split; intros Hn.
  - rewrite bool_decide_eq_true_2 by exact Hn. split; reflexivity.
  - rewrite bool_decide_eq_false_2 by lia. split; reflexivity.
Qed.

(** C5. When the user declines the confirmation, [handleClearSchedule]
    returns with the world as it found it: no call is made, neither
    [clearSchedules] nor [logAnalytics], and the store and the popover are
    unchanged. *)
Theorem handleClearSchedule_declined_is_skipped w :
  window_confirm "Are you sure you want to clear this schedule?" (ext w) = false ->
  handleClearSchedule w = (tt, w)
  /\ calls (exec handleClearSchedule w) = calls w
  /\ ext (exec handleClearSchedule w) = ext w.
Proof.
  intros Hno.
  assert (Hrun : handleClearSchedule w = (tt, w)).
  { unfold handleClearSchedule, mbind, M_bind, bind, confirm. rewrite Hno. reflexivity. }
  unfold exec. rewrite Hrun. repeat split.
Qed.

(** C6, as the code has it.  An action that is not skipped makes two calls.
    Undoing the last delete and toggling the finals view report the
    analytics event first and then call the mutation; clearing the current
    schedule, once confirmed, calls [clearSchedules] first and reports the
    analytics event second. *)
Theorem toolbar_action_call_order (a : ToolbarAction) w :
  skipped a w = false ->
  calls (exec (toolbar_onClick a) w) =
  calls w ++
    match a with
    | UndoLastDelete =>
        [logAnalytics {| category := calendar_title; action := UNDO |}; undoDelete]
    | ToggleFinalsView =>
        [logAnalytics {| category := calendar_title; action := DISPLAY_FINALS |};
         toggleDisplayFinalsSchedule]
    | ClearCurrentSchedule =>
        [clearSchedules;
         logAnalytics {| category := calendar_title; action := CLEAR_SCHEDULE |}]
    end.
Proof.
  intros Hrun. destruct a; unfold toolbar_onClick, skipped in *.
  - unfold handleUndo. rewrite exec_seq, !call_calls, <- app_assoc. reflexivity.
  - apply negb_false_iff in Hrun.
    unfold exec, handleClearSchedule, mbind, M_bind, bind, confirm.
    rewrite Hrun. simpl. rewrite <- app_assoc. reflexivity.
  - unfold handleToggleFinals. rewrite exec_seq, !call_calls, <- app_assoc. reflexivity.
Qed.

(** [handleToggleFinals] reports the event and then runs the callback it
    was given, whatever that callback is. *)
Lemma handleToggleFinals_reports_first (toggle : M Ext unit) w :
  handleToggleFinals toggle w =
  toggle (exec (call (logAnalytics {| category := calendar_title;
                                      action := DISPLAY_FINALS |})) w).
Proof. reflexivity. Qed.

(** C7, as the code has it.  The click on a select button of the popover
    reports the analytics event and then calls [changeCurrentSchedule] with
    the index of that entry; the anchor of the popover is what it was
    before the click, so an open popover stays open. *)
Theorem schedule_button_click w (scheduleIndex : Z) (scheduleName : string)
    (onClick : unit -> M Ext unit) :
  (scheduleIndex, scheduleName, onClick) ∈ schedule_buttons (popover w) ->
  calls (exec (onClick tt) w) =
    calls w ++ [logAnalytics {| category := calendar_title; action := CHANGE_SCHEDULE |};
                changeCurrentSchedule scheduleIndex]
  /\ anchorEl (popover (exec (onClick tt) w)) = anchorEl (popover w).
Proof.
  unfold schedule_buttons. rewrite list_elem_of_fmap.
  intros ([index name] & Heq & _). injection Heq as -> -> ->.
  unfold createScheduleSelector, handleScheduleChange. rewrite exec_seq. split.
  - rewrite !call_calls, <- app_assoc. reflexivity.
  - rewrite !call_anchorEl. reflexivity.
Qed.

(** The callback of the memo: when no pair of any term of the map has the
    current index, the name it computes is "N/A"; otherwise it is the name of
    the first pair with that index, the pairs being taken term by term in
    the order of the map. *)
Lemma currentScheduleName_first_match (scheduleMap : ScheduleMap) (current : Z) :
  ((forall term pairs index name,
       (term, pairs) ∈ scheduleMap -> (index, name) ∈ pairs -> index <> current) ->
   currentScheduleName scheduleMap current = "N/A")
  /\ (forall (k : nat) (name : string),
       concat (snd <$> scheduleMap) !! k = Some (current, name) ->
       (forall j p, (j < k)%nat -> concat (snd <$> scheduleMap) !! j = Some p ->
                    p.1 <> current) ->
       currentScheduleName scheduleMap current = name).
Proof.
  unfold currentScheduleName. rewrite find_in_values_concat. split.
  - intros Hnone. rewrite find_schedule_name_None; [reflexivity|].
    intros index name Hin. apply elem_of_concat in Hin as (pairs & Hin & Hpairs).
    apply list_elem_of_fmap in Hpairs as ([term pairs'] & -> & Hterm).
    exact (Hnone term pairs' index name Hterm Hin).
  - intros k name Hk Hbefore.
    rewrite (find_schedule_name_first _ current k name Hk Hbefore). reflexivity.
Qed.

End Toolbar.

(* ===================================================================== *)
(** * The handlers on the small environment *)
(* ===================================================================== *)

Section Examples.
Import EventEmitter CalendarToolbar.

Lemma DeleteScheduleButton_disabled_iff_single_witness :
  (disabled (DeleteScheduleButton.render (Fixture.state Fixture.one_schedule true)) = true
   /\ click (DeleteScheduleButton.render (Fixture.state Fixture.one_schedule true)) false
      = false)
  /\ (disabled (DeleteScheduleButton.render (Fixture.state Fixture.two_schedules true)) = false
      /\ click (DeleteScheduleButton.render (Fixture.state Fixture.two_schedules true)) false
         = true).
Proof.
  split.
  - destruct (DeleteScheduleButton_disabled_iff_single
                (Fixture.state Fixture.one_schedule true) false) as [Hone _].
    apply Hone. reflexivity.
  - destruct (DeleteScheduleButton_disabled_iff_single
                (Fixture.state Fixture.two_schedules true) false) as [_ Hmore].
    apply Hmore. reflexivity.
Defined.

Lemma handleClearSchedule_declined_is_skipped_witness :
  handleClearSchedule (Fixture.world Fixture.two_schedules false)
  = (tt, Fixture.world Fixture.two_schedules false)
  /\ calls (exec handleClearSchedule (Fixture.world Fixture.two_schedules false)) = []
  /\ ext (exec handleClearSchedule (Fixture.world Fixture.two_schedules false))
     = Fixture.state Fixture.two_schedules false.
Proof.
  apply (handleClearSchedule_declined_is_skipped (Fixture.world Fixture.two_schedules false)).
  reflexivity.
Defined.

(** C6, as the spec states it, fails on the clear action: with a user who
    confirms, the action is not skipped and its first call is
    [clearSchedules], not the analytics report. *)
Lemma clear_schedule_reports_after_mutation :
  skipped ClearCurrentSchedule (Fixture.world Fixture.two_schedules true) = false
  /\ ~ analytics_then_mutation
         (calls (Fixture.world Fixture.two_schedules true))
         (calls (exec (toolbar_onClick ClearCurrentSchedule)
                   (Fixture.world Fixture.two_schedules true))).
Proof.
  split; [reflexivity|].
  intros (event & c & _ & Hcalls). vm_compute in Hcalls. discriminate Hcalls.
Qed.

Lemma toolbar_action_call_order_witness :
  calls (exec (toolbar_onClick ClearCurrentSchedule)
           (Fixture.world Fixture.two_schedules true))
  = [clearSchedules; logAnalytics {| category := calendar_title; action := CLEAR_SCHEDULE |}]
  /\ calls (exec (toolbar_onClick UndoLastDelete)
              (Fixture.world Fixture.two_schedules true))
     = [logAnalytics {| category := calendar_title; action := UNDO |}; undoDelete].
Proof.
  split.
  - apply (toolbar_action_call_order ClearCurrentSchedule
             (Fixture.world Fixture.two_schedules true)).
    reflexivity.
  - apply (toolbar_action_call_order UndoLastDelete
             (Fixture.world Fixture.two_schedules true)).
    reflexivity.
Defined.

(** C7, as the spec states it, fails on its second half: the popover is
    open on the button [1], the entry of index 1 is listed, and after the
    click on it the anchor is still that button. *)
Lemma schedule_button_click_keeps_popover_open :
  (1, "Schedule 2", createScheduleSelector 1)
    ∈ schedule_buttons (popover (Fixture.world Fixture.two_schedules true))
  /\ changeCurrentSchedule 1
       ∈ calls (exec (createScheduleSelector 1 tt) (Fixture.world Fixture.two_schedules true))
  /\ anchorEl (popover (exec (createScheduleSelector 1 tt)
                          (Fixture.world Fixture.two_schedules true)))
     <> None.
Proof.
  split; [|split].
  - unfold schedule_buttons, entries. simpl. rewrite !elem_of_cons. right. left. reflexivity.
  - unfold createScheduleSelector, handleScheduleChange. rewrite exec_seq, !call_calls.
    simpl. rewrite !elem_of_cons. right. left. reflexivity.
  - vm_compute. discriminate.
Qed.

Lemma schedule_button_click_witness :
  calls (exec (createScheduleSelector 1 tt) (Fixture.world Fixture.two_schedules true))
  = [logAnalytics {| category := calendar_title; action := CHANGE_SCHEDULE |};
     changeCurrentSchedule 1]
  /\ anchorEl (popover (exec (createScheduleSelector 1 tt)
                          (Fixture.world Fixture.two_schedules true)))
     = Some 1%positive.
Proof.
  apply (schedule_button_click (Fixture.world Fixture.two_schedules true)
           1 "Schedule 2" (createScheduleSelector 1)).
  unfold schedule_buttons, entries. simpl. rewrite !elem_of_cons. right. left. reflexivity.
Defined.

Lemma subscribe_then_unsubscribe_restores_witness :
  unsubscribe HandleScheduleIndexChange HandleScheduleNamesChange
    (subscribe HandleScheduleIndexChange HandleScheduleNamesChange
       (∅ : gmap string (list Callback)))
  = ∅.
Proof.
  destruct (subscribe_then_unsubscribe_restores
              HandleScheduleIndexChange HandleScheduleNamesChange
              (∅ : gmap string (list Callback))) as (_ & _ & _ & Hrestore).
  apply Hrestore. intros name. rewrite lookup_empty. discriminate.
Defined.

Lemma currentScheduleName_first_match_witness :
  currentScheduleName Fixture.two_schedules 7 = "N/A"
  /\ currentScheduleName Fixture.two_schedules 1 = "Schedule 2".
Proof.
  split.
  - destruct (currentScheduleName_first_match Fixture.two_schedules 7) as [Hnone _].
    apply Hnone. intros term pairs index name Hterm Hpair.
    unfold Fixture.two_schedules in Hterm. rewrite !elem_of_cons, elem_of_nil in Hterm.
    destruct Hterm as [[= -> ->] | [[= -> ->] | []]];
      apply list_elem_of_singleton in Hpair; injection Hpair as -> ->; discriminate.
  - destruct (currentScheduleName_first_match Fixture.two_schedules 1) as [_ Hfirst].
    apply (Hfirst 1%nat "Schedule 2"); [reflexivity|].
    intros [|j] p Hj Hp; [|lia]. injection Hp as <-. discriminate.
Defined.

End Examples.

(* ===================================================================== *)
(** * More on the term table *)
(* ===================================================================== *)

Section TermTableDates.
Import Terms TermOrder TermDates.

(** X1. The enumeration of term names lists no name twice. *)
Theorem termNamesArray_NoDup : NoDup termNamesArray.
Proof. apply (bool_decide_unpack _). vm_compute. reflexivity. Qed.

(** Steps through a statement on every entry of the table. *)
Ltac each_term tac :=
  unfold termsArray; repeat (apply Forall_cons; split; [tac|]); apply Forall_nil_2.

(** X2. A start date of the table is a day of the calendar, with the month
    counted from 0, and its year is the year of the short name. *)
Theorem startDate_valid (t : Term) (date : Z * Z * Z) :
  t ∈ termsArray ->
  startDate t = Some date ->
  valid_date date /\ year_of t = Some (Z.to_N date.1.1).
Proof.
  revert t date.
  assert (Hall : Forall (fun t => forall date, startDate t = Some date ->
                           valid_date date /\ year_of t = Some (Z.to_N date.1.1))
                   termsArray).
  { each_term ltac:(simpl; intros date Hd;
                    first [discriminate Hd
                          | injection Hd as <-; split;
                            [unfold valid_date; cbn; lia | vm_compute; reflexivity]]). }
  rewrite Forall_forall in Hall. intros t date Ht. exact (Hall t Ht date).
Qed.

Lemma startDate_valid_witness :
  valid_date (2020, 9, 1) /\ year_of (mkTerm "2020 Fall" "2020 Fall Quarter" (Some (2020, 9, 1)))
                             = Some 2020%N.
Proof.
  apply (startDate_valid (mkTerm "2020 Fall" "2020 Fall Quarter" (Some (2020, 9, 1)))
           (2020, 9, 1)).
  - apply (list_elem_of_lookup_2 _ 18). reflexivity.
  - reflexivity.
Defined.

Lemma termsArray_starts_sorted : StronglySorted starts_no_earlier termsArray.
Proof. apply (bool_decide_unpack _). vm_compute. reflexivity. Qed.

(** X3. The start dates follow the order of the table: of two entries that
    both have a start date, the one listed first starts on the same day as
    the other or later. *)
Theorem startDate_non_increasing (i j : nat) (a b : Term) (da db : Z * Z * Z) :
  (i < j)%nat ->
  termsArray !! i = Some a ->
  termsArray !! j = Some b ->
  startDate a = Some da ->
  startDate b = Some db ->
  date_le db da.
Proof.
  intros Hij Hi Hj Ha Hb.
  pose proof (StronglySorted_lookup_lt starts_no_earlier termsArray i j a b
                termsArray_starts_sorted Hij Hi Hj) as Hs.
  unfold starts_no_earlier in Hs. rewrite Ha, Hb in Hs. exact Hs.
Qed.

Lemma startDate_non_increasing_witness : date_le (2023, 5, 26) (2023, 5, 26).
Proof.
  apply (startDate_non_increasing 2 3
           (mkTerm "2023 Summer10wk" "2023 10-wk Summer" (Some (2023, 5, 26)))
           (mkTerm "2023 Summer1" "2023 Summer Session 1" (Some (2023, 5, 26))));
    [lia | reflexivity | reflexivity | reflexivity | reflexivity].
Defined.

(** X4. The table is complete from 2015 to 2023: it has an entry for each of
    the six sessions of each of these years.  Every entry is of a year from
    2014 to 2023, and the only session of 2014 is Fall. *)
Theorem termsArray_complete :
  (forall (y : N) (s : Session),
      (2015 <= y <= 2023)%N ->
      exists t, t ∈ termsArray /\ components (shortName t) = Some (y, s))
  /\ (forall t, t ∈ termsArray ->
        exists y s, components (shortName t) = Some (y, s)
                    /\ (2014 <= y <= 2023)%N /\ (y = 2014%N -> s = Fall)).
Proof.
  split.
  - intros y s Hy.
    assert (Hex : Exists (fun t => components (shortName t) = Some (y, s)) termsArray).
    { assert (Hcases : y ∈ [2015; 2016; 2017; 2018; 2019; 2020; 2021; 2022; 2023]%N).
      { rewrite !elem_of_cons. lia. }
      rewrite !elem_of_cons, elem_of_nil in Hcases.
      destruct Hcases as [->|[->|[->|[->|[->|[->|[->|[->|[->|[]]]]]]]]]]; destruct s;
        apply (bool_decide_unpack _); vm_compute; reflexivity. }
    apply Exists_exists in Hex. exact Hex.
  - apply Forall_forall.
    each_term ltac:(eexists _, _; split; [vm_compute; reflexivity|];
                    split; [lia | intros Hy; first [reflexivity | discriminate Hy]]).
Qed.

(** X5. The long name of an entry goes with its short name: it is the year of
    the short name, a space and the long wording of its session. *)
Theorem longName_from_shortName (t : Term) :
  t ∈ termsArray -> long_name_of (shortName t) = Some (longName t).
Proof.
  revert t. apply Forall_forall. apply (bool_decide_unpack _). vm_compute. reflexivity.
Qed.

Lemma longName_from_shortName_witness :
  long_name_of "2014 Fall" = Some "2014 Fall Quarter".
Proof.
  apply (longName_from_shortName (mkTerm "2014 Fall" "2014 Fall Quarter" None)).
  apply (list_elem_of_lookup_2 _ 54). reflexivity.
Defined.

End TermTableDates.

(* ===================================================================== *)
(** * More on the schedule selector popover *)
(* ===================================================================== *)

Section Popover.
Import EventEmitter CalendarToolbar.
Context `{External Ext}.
Implicit Types (w : World Ext) (st : PopoverState).

Lemma react_cases st (name : string) (store : Ext) :
  react st (name, store) =
  if bool_decide (name ∈ ["addedCoursesChange"; "customEventsChange"; "colorChange";
                          "currentScheduleIndexChange"])
  then handleScheduleIndexChange store st
  else if bool_decide (name = "scheduleNamesChange")
       then handleScheduleNamesChange store st
       else st.
Proof.
  unfold react. simpl. rewrite listeners_subscribe.
  unfold listeners at 1. rewrite lookup_empty. simpl.
  repeat case_bool_decide; reflexivity.
Qed.

(** X6. The popover reacts to five events of the store and to no other.  On
    [addedCoursesChange], [customEventsChange], [colorChange] and
    [currentScheduleIndexChange] it reads the current index of the store and
    keeps its schedule map; on [scheduleNamesChange] it reads the schedule
    map and keeps its index; any other event leaves its state as it is.  No
    event changes the anchor. *)
Theorem react_by_event st (name : string) (store : Ext) :
  (name ∈ ["addedCoursesChange"; "customEventsChange"; "colorChange";
           "currentScheduleIndexChange"] ->
   react st (name, store) =
   {| currentScheduleIndex := getCurrentScheduleIndex store;
      anchorEl := anchorEl st;
      scheduleMap := scheduleMap st |})
  /\ (name = "scheduleNamesChange" ->
      react st (name, store) =
      {| currentScheduleIndex := currentScheduleIndex st;
         anchorEl := anchorEl st;
         scheduleMap := getTermToScheduleMap store |})
  /\ (name ∉ ["addedCoursesChange"; "customEventsChange"; "colorChange";
              "currentScheduleIndexChange"; "scheduleNamesChange"] ->
      react st (name, store) = st).
Proof.
  rewrite react_cases. split; [|split].
  - intros Hin. rewrite bool_decide_eq_true_2 by exact Hin. reflexivity.
  - intros ->. rewrite bool_decide_eq_false_2.
    + rewrite bool_decide_eq_true_2 by reflexivity. reflexivity.
    + rewrite !elem_of_cons, elem_of_nil. intros [E|[E|[E|[E|[]]]]]; discriminate E.
  - intros Hout. rewrite !elem_of_cons, elem_of_nil in Hout.
    rewrite bool_decide_eq_false_2
      by (rewrite !elem_of_cons, elem_of_nil; tauto).
    rewrite bool_decide_eq_false_2 by tauto. reflexivity.
Qed.

(** X7. Whatever happens to a mounted popover, its anchor is decided by the
    last click on its button or request to close: the button clicked, if the
    click came last, nothing if the request came last, and the anchor it
    started with if there was neither.  The events of the store play no
    part. *)
Theorem popover_anchor_after_events st (evs : list (PopoverEvent Ext)) :
  anchorEl (foldl popover_step st evs) =
  match last (filter (fun ev => is_ui_event ev = true) evs) with
  | Some (Clicked currentTarget) => Some currentTarget
  | Some Closed => None
  | _ => anchorEl st
  end.
Proof.
  induction evs as [|ev evs IH] using rev_ind; [reflexivity|].
  rewrite foldl_app, filter_app. simpl.
  destruct ev as [target| |name store]; simpl.
  - rewrite filter_cons_True by reflexivity. rewrite filter_nil, last_snoc. reflexivity.
  - rewrite filter_cons_True by reflexivity. rewrite filter_nil, last_snoc. reflexivity.
  - rewrite filter_cons_False by discriminate. rewrite filter_nil, app_nil_r.
    rewrite react_anchorEl. exact IH.
Qed.

(** X8. The index and the schedule map the popover holds are those of the
    store at the last event that made it read them: the index at the last of
    the four events that refresh it, the map at the last
    [scheduleNamesChange]; without such an event they are what the popover
    started with.  Clicks and requests to close change neither. *)
Theorem popover_cache_after_events st (evs : list (PopoverEvent Ext)) :
  currentScheduleIndex (foldl popover_step st evs) =
    match last (filter (fun ev => refreshes_index ev = true) evs) with
    | Some (Emitted _ store) => getCurrentScheduleIndex store
    | _ => currentScheduleIndex st
    end
  /\ scheduleMap (foldl popover_step st evs) =
    match last (filter (fun ev => refreshes_names ev = true) evs) with
    | Some (Emitted _ store) => getTermToScheduleMap store
    | _ => scheduleMap st
    end.
Proof.
  induction evs as [|ev evs [IHi IHm]] using rev_ind; [split; reflexivity|].
  rewrite foldl_app, !filter_app. simpl.
  destruct ev as [target| |name store]; simpl.
  - rewrite !filter_cons_False by discriminate. rewrite !filter_nil, !app_nil_r.
    split; assumption.
  - rewrite !filter_cons_False by discriminate. rewrite !filter_nil, !app_nil_r.
    split; assumption.
  - rewrite react_cases.
    destruct (bool_decide (name ∈ _)) eqn:Hidx.
    + assert (Hn : bool_decide (name = "scheduleNamesChange") = false).
      { apply bool_decide_eq_false. intros ->. revert Hidx. vm_compute. discriminate. }
      rewrite (filter_cons_True (fun ev => refreshes_index ev = true)) by exact Hidx.
      rewrite (filter_cons_False (fun ev => refreshes_names ev = true))
        by (simpl; rewrite Hn; discriminate).
      rewrite !filter_nil, last_snoc, app_nil_r. split; [reflexivity | exact IHm].
    + rewrite (filter_cons_False (fun ev => refreshes_index ev = true))
        by (simpl; rewrite Hidx; discriminate).
      rewrite filter_nil, app_nil_r.
      destruct (bool_decide (name = "scheduleNamesChange")) eqn:Hn.
      * rewrite (filter_cons_True (fun ev => refreshes_names ev = true)) by exact Hn.
        rewrite filter_nil, last_snoc. split; [exact IHi | reflexivity].
      * rewrite (filter_cons_False (fun ev => refreshes_names ev = true))
          by (simpl; rewrite Hn; discriminate).
        rewrite filter_nil, app_nil_r. split; assumption.
Qed.

(** X9. No action of the toolbar opens or closes the popover: after undoing,
    clearing (confirmed or declined) or toggling the finals view the anchor
    is what it was. *)
Theorem toolbar_action_keeps_anchor (a : ToolbarAction) w :
  anchorEl (popover (exec (toolbar_onClick a) w)) = anchorEl (popover w).
Proof.
  destruct a; unfold toolbar_onClick.
  - unfold handleUndo. rewrite exec_seq, !call_anchorEl. reflexivity.
  - unfold exec, handleClearSchedule, mbind, M_bind, bind, confirm.
    destruct (window_confirm _ (ext w)); [|reflexivity].
    change (anchorEl (popover (exec (call (logAnalytics
              {| category := calendar_title; action := CLEAR_SCHEDULE |}))
              (exec (call clearSchedules) w))) = anchorEl (popover w)).
    rewrite !call_anchorEl. reflexivity.
  - unfold handleToggleFinals. rewrite exec_seq, !call_anchorEl. reflexivity.
Qed.

Lemma find_schedule_name_NoDup (l : list (Z * string)) (current : Z) (name : string) :
  NoDup (fst <$> l) -> (current, name) ∈ l -> find_schedule_name l current = Some name.
Proof.
  induction l as [|[index n] l IH]; simpl; intros Hnd Hin.
  - apply elem_of_nil in Hin. contradiction.
  - apply NoDup_cons in Hnd as [Hfresh Hnd].
    apply elem_of_cons in Hin as [[= <- <-]|Hin].
    + rewrite bool_decide_eq_true_2 by reflexivity. reflexivity.
    + rewrite bool_decide_eq_false_2; [apply IH; assumption|].
      intros ->. apply Hfresh.
      apply (list_elem_of_fmap_2 fst) in Hin. exact Hin.
Qed.

(** When the entries have different indexes, the callback of the memo
    computes, from the map and index held, the name of the entry shown as
    selected. *)
Lemma selected_entry_is_current_name st (scheduleIndex : Z) (scheduleName : string) :
  NoDup (fst <$> entries st) ->
  (scheduleIndex, scheduleName) ∈ entries st ->
  selected st scheduleIndex = true ->
  currentScheduleName (scheduleMap st) (currentScheduleIndex st) = scheduleName.
Proof.
  intros Hnd Hin Hsel. apply bool_decide_eq_true in Hsel. subst scheduleIndex.
  unfold entries in Hnd, Hin.
  unfold currentScheduleName. rewrite find_in_values_concat.
  rewrite (find_schedule_name_NoDup _ _ scheduleName Hnd Hin). reflexivity.
Qed.

Lemma find_schedule_name_Some (l : list (Z * string)) (current : Z) (name : string) :
  find_schedule_name l current = Some name -> (current, name) ∈ l.
Proof.
  induction l as [|[index n] l IH]; simpl; [discriminate|].
  case_bool_decide as Hi.
  - intros [= <-]. subst index. left.
  - intros Hfind. right. apply IH, Hfind.
Qed.

Lemma find_schedule_name_is_Some (l : list (Z * string)) (current : Z) :
  is_Some (find_schedule_name l current) <-> current ∈ (fst <$> l).
Proof.
  induction l as [|[index n] l IH]; simpl.
  - rewrite elem_of_nil. split; [intros [x Hx]; discriminate Hx | tauto].
  - rewrite elem_of_cons. case_bool_decide as Hi.
    + subst index. split; [auto | eauto].
    + rewrite IH. split; [auto | intros [E|Hin]; [congruence | exact Hin]].
Qed.

(** The callback of the memo makes no name up: its result is "N/A" or the
    name of a pair of some term of the map whose index is the current one. *)
Lemma currentScheduleName_from_map (scheduleMap : ScheduleMap) (current : Z) :
  currentScheduleName scheduleMap current = "N/A"
  \/ exists term pairs,
       (term, pairs) ∈ scheduleMap
       /\ (current, currentScheduleName scheduleMap current) ∈ pairs.
Proof.
  unfold currentScheduleName. rewrite find_in_values_concat.
  destruct (find_schedule_name _ current) as [name|] eqn:Hfind; [right | left; reflexivity].
  apply find_schedule_name_Some, elem_of_concat in Hfind as (pairs & Hin & Hpairs).
  apply list_elem_of_fmap in Hpairs as ([term pairs'] & -> & Hterm).
  exists term, pairs'. split; assumption.
Qed.

(** X12. The terms are searched in order: for a map made of two parts, the
    name is found in the first part when the current index occurs there, and
    in the second part otherwise. *)
Theorem currentScheduleName_app (m1 m2 : ScheduleMap) (current : Z) :
  currentScheduleName (m1 ++ m2) current =
  if bool_decide (current ∈ (fst <$> concat (snd <$> m1)))
  then currentScheduleName m1 current
  else currentScheduleName m2 current.
Proof.
  unfold currentScheduleName. rewrite !find_in_values_concat.
  rewrite fmap_app, concat_app, find_schedule_name_app.
  pose proof (find_schedule_name_is_Some (concat (snd <$> m1)) current) as Hfound.
  case_bool_decide as Hin.
  - apply Hfound in Hin as [name ->]. reflexivity.
  - destruct (find_schedule_name (concat (snd <$> m1)) current) as [name|] eqn:E;
      [|reflexivity].
    exfalso. apply Hin, Hfound. eauto.
Qed.

(** X13. As long as every rendering of the delete button of a schedule
    reads exactly one schedule from the store, its dialog stays closed,
    whatever the renderings, clicks and requests to close. *)
Theorem delete_dialog_stays_closed (store : Ext) (evs : list (DialogEvent Ext)) :
  getNumberOfSchedules store = 1 ->
  (forall store', Rendered store' ∈ evs -> getNumberOfSchedules store' = 1) ->
  dialog (foldl DeleteScheduleButton_step (DeleteScheduleButton_mount store) evs) = false.
Proof.
  intros Hfirst Hall.
  assert (Hinv : disabled (button (foldl DeleteScheduleButton_step
                                     (DeleteScheduleButton_mount store) evs)) = true
                 /\ dialog (foldl DeleteScheduleButton_step
                              (DeleteScheduleButton_mount store) evs) = false);
    [|exact (proj2 Hinv)].
  induction evs as [|ev evs IH] using rev_ind.
  - simpl. split; [apply bool_decide_eq_true_2, Hfirst | reflexivity].
  - rewrite foldl_app. simpl.
    destruct IH as [Hdis Hclosed].
    { intros s Hs. apply Hall, elem_of_app. left. exact Hs. }
    destruct ev as [store'| |]; simpl.
    + split; [|exact Hclosed].
      apply bool_decide_eq_true_2, Hall, elem_of_app. right. left.
    + split; [exact Hdis|]. unfold click. rewrite Hdis. exact Hclosed.
    + split; [exact Hdis | reflexivity].
Qed.

(** **** The name on the button *)

Lemma render_popover_deps (previous : option (MemoCell Z string)) st :
  deps (nameCell (render_popover previous st)) = currentScheduleIndex st.
Proof.
  unfold render_popover, useMemo. simpl.
  destruct previous as [cell|]; [|reflexivity].
  case_decide; [assumption | reflexivity].
Qed.

Lemma render_popover_fresh (previous : option (MemoCell Z string)) st :
  (forall cell, previous = Some cell -> deps cell <> currentScheduleIndex st) ->
  displayedName (render_popover previous st)
  = currentScheduleName (scheduleMap st) (currentScheduleIndex st).
Proof.
  intros Hnew. unfold displayedName, render_popover, useMemo. simpl.
  destruct previous as [cell|]; [|reflexivity].
  rewrite decide_False by (apply Hnew; reflexivity). reflexivity.
Qed.

Lemma render_popover_kept (cell : MemoCell Z string) st :
  deps cell = currentScheduleIndex st ->
  displayedName (render_popover (Some cell) st) = value cell.
Proof.
  intros Hsame. unfold displayedName, render_popover, useMemo. simpl.
  rewrite decide_True by exact Hsame. reflexivity.
Qed.

Lemma run_snoc (store : Ext) (batches : list (list (PopoverEvent Ext)))
    (batch : list (PopoverEvent Ext)) :
  run store (batches ++ [batch]) = rerender (run store batches) batch.
Proof. unfold run. rewrite foldl_app. reflexivity. Qed.

Lemma run_deps (store : Ext) (batches : list (list (PopoverEvent Ext))) :
  deps (nameCell (run store batches)) = currentScheduleIndex (held (run store batches)).
Proof.
  destruct batches as [|batch batches _] using rev_ind.
  - apply render_popover_deps.
  - rewrite run_snoc. apply render_popover_deps.
Qed.

(** X10. On the first rendering, and on a rendering for which the index held
    has changed, the entry shown as selected is the one whose name the
    button of the popover shows, provided the entries have different
    indexes. *)
Theorem selected_entry_is_displayed_name (store : Ext) :
  (forall (scheduleIndex : Z) (scheduleName : string),
      NoDup (fst <$> entries (held (mount store))) ->
      (scheduleIndex, scheduleName) ∈ entries (held (mount store)) ->
      selected (held (mount store)) scheduleIndex = true ->
      displayedName (mount store) = scheduleName)
  /\ (forall (batches : list (list (PopoverEvent Ext))) (batch : list (PopoverEvent Ext))
            (scheduleIndex : Z) (scheduleName : string),
      currentScheduleIndex (held (rerender (run store batches) batch))
        <> currentScheduleIndex (held (run store batches)) ->
      NoDup (fst <$> entries (held (rerender (run store batches) batch))) ->
      (scheduleIndex, scheduleName) ∈ entries (held (rerender (run store batches) batch)) ->
      selected (held (rerender (run store batches) batch)) scheduleIndex = true ->
      displayedName (rerender (run store batches) batch) = scheduleName).
Proof.
  split.
  - intros i n Hnd Hin Hsel. unfold mount in *.
    rewrite render_popover_fresh by discriminate.
    exact (selected_entry_is_current_name _ i n Hnd Hin Hsel).
  - intros batches batch i n Hchanged Hnd Hin Hsel. unfold rerender in *.
    rewrite render_popover_fresh.
    + exact (selected_entry_is_current_name _ i n Hnd Hin Hsel).
    + intros cell [= <-]. rewrite run_deps. intros Heq. apply Hchanged.
      simpl. symmetry. exact Heq.
Qed.

(** X11. The name on the button is never made up, but it may be out of
    date: after any batches of events it is "N/A" or a name that the map
    held at the first rendering, or after one of the batches, pairs with the
    index now held.  The cell of the memo is always that of the index
    held. *)
Theorem displayedName_from_a_held_map (store : Ext)
    (batches : list (list (PopoverEvent Ext))) :
  deps (nameCell (run store batches)) = currentScheduleIndex (held (run store batches))
  /\ (displayedName (run store batches) = "N/A"
      \/ exists (k : nat) term pairs,
           (k <= length batches)%nat
           /\ (term, pairs) ∈ scheduleMap (held (run store (take k batches)))
           /\ (currentScheduleIndex (held (run store batches)),
               displayedName (run store batches)) ∈ pairs).
Proof.
  split; [apply run_deps|].
  induction batches as [|batch batches IH] using rev_ind.
  - unfold run, mount. simpl. rewrite render_popover_fresh by discriminate.
    destruct (currentScheduleName_from_map
                (getTermToScheduleMap store) (getCurrentScheduleIndex store))
      as [Hna | (term & pairs & Hterm & Hpair)]; [left; exact Hna | right].
    exists 0%nat, term, pairs. repeat split; [lia | exact Hterm | exact Hpair].
  - rewrite run_snoc. unfold rerender.
    set (st' := foldl popover_step (held (run store batches)) batch).
    destruct (decide (deps (nameCell (run store batches)) = currentScheduleIndex st'))
      as [Hsame | Hnew].
    + rewrite render_popover_kept by exact Hsame. simpl.
      fold (displayedName (run store batches)).
      destruct IH as [Hna | (k & term & pairs & Hk & Hterm & Hpair)];
        [left; exact Hna | right].
      exists k, term, pairs. rewrite length_app. simpl.
      rewrite take_app_le by exact Hk.
      rewrite <- Hsame, run_deps. repeat split; [lia | exact Hterm | exact Hpair].
    + rewrite render_popover_fresh by (intros cell [= <-]; exact Hnew). simpl.
      destruct (currentScheduleName_from_map (scheduleMap st') (currentScheduleIndex st'))
        as [Hna | (term & pairs & Hterm & Hpair)]; [left; exact Hna | right].
      exists (length (batches ++ [batch])), term, pairs.
      rewrite firstn_all, run_snoc. unfold rerender. simpl. fold st'.
      repeat split; [lia | exact Hterm | exact Hpair].
Qed.

End Popover.

(* ===================================================================== *)
(** * More on the subscriptions of the popover *)
(* ===================================================================== *)

Section SeveralPopovers.
Import EventEmitter CalendarToolbar.
Context {Listener : Type} `{EqDecision Listener}.
Implicit Types (m : gmap string (list Listener)) (f g : Listener) (l : list Listener).

Lemma remove_last_snoc_snoc f g l : remove_last f ((l ++ [f]) ++ [g]) = l ++ [g].
Proof.
  unfold remove_last. rewrite !reverse_snoc. simpl.
  destruct (decide (g = f)) as [->|Hne].
  - rewrite reverse_cons, reverse_involutive. reflexivity.
  - rewrite decide_True by reflexivity.
    rewrite reverse_cons, reverse_involutive. reflexivity.
Qed.

Lemma listeners_unsubscribe_other (h1 h2 g1 g2 : Listener) m k :
  listeners (unsubscribe h1 h2 (subscribe g1 g2 (subscribe h1 h2 m))) k
  = listeners (subscribe g1 g2 m) k.
Proof.
  rewrite listeners_unsubscribe, !listeners_subscribe.
  repeat case_bool_decide; rewrite ?remove_last_snoc_snoc, ?app_nil_r; reflexivity.
Qed.

(** X14. Two popovers on one store: when the first to subscribe is torn
    down, every event keeps the callbacks of the second (and those that were
    there before), as if the first had never subscribed. *)
Theorem unsubscribe_keeps_other_popover (h1 h2 g1 g2 : Listener)
    (m : gmap string (list Listener)) :
  (forall name,
      listeners (unsubscribe h1 h2 (subscribe g1 g2 (subscribe h1 h2 m))) name
      = listeners (subscribe g1 g2 m) name)
  /\ (well_formed m ->
      unsubscribe h1 h2 (subscribe g1 g2 (subscribe h1 h2 m)) = subscribe g1 g2 m).
Proof.
  split; [intros; apply listeners_unsubscribe_other|].
  intros Hm. apply well_formed_ext.
  - unfold unsubscribe, subscribe.
    repeat apply well_formed_off. repeat apply well_formed_on. exact Hm.
  - unfold subscribe. repeat apply well_formed_on. exact Hm.
  - intros k. apply listeners_unsubscribe_other.
Qed.

End SeveralPopovers.

(* ===================================================================== *)
(** * The application bar *)
(* ===================================================================== *)

Section AppBar.
Import CustomAppBar.

(** X16. The bar shows the same five menu triggers, in the same order, on a
    wide and on a narrow screen: inline on a wide one, as the items of one
    menu on a narrow one.  The menu and its icon are there on a narrow
    screen only; the menu is kept mounted, is open exactly when the anchor
    is set, and numbers its items from 0. *)
Theorem CustomAppBar_shows_every_component (isMobileScreen : bool)
    (anchorEl : option Element) :
  triggers (render isMobileScreen anchorEl) = components
  /\ (MenuIcon ∈ render isMobileScreen anchorEl <-> isMobileScreen = true)
  /\ (forall c, Inline c ∈ render isMobileScreen anchorEl ->
        isMobileScreen = false /\ c ∈ components)
  /\ (forall a keepMounted open items,
        Menu a keepMounted open items ∈ render isMobileScreen anchorEl ->
        isMobileScreen = true /\ a = anchorEl /\ keepMounted = true
        /\ (open = true <-> is_Some anchorEl)
        /\ index <$> items = seq 0 (length components)
        /\ element <$> items = components).
Proof.
  destruct isMobileScreen; unfold render; simpl.
  - split; [reflexivity|]. split; [|split].
    + split; [reflexivity|]. intros _. rewrite !elem_of_cons. tauto.
    + intros c Hc. rewrite !elem_of_cons, elem_of_nil in Hc.
      destruct Hc as [E|[E|[E|[E|[E|[]]]]]]; discriminate E.
    + intros a k o items Hm. rewrite !elem_of_cons, elem_of_nil in Hm.
      destruct Hm as [E|[E|[E|[E|[E|[]]]]]]; try discriminate E.
      injection E as -> -> -> ->.
      repeat split; try reflexivity; apply bool_decide_eq_true.
  - split; [reflexivity|]. split; [|split].
    + rewrite !elem_of_cons, elem_of_nil.
      split; [intros [E|[E|[E|[E|[E|[E|[E|[E|[]]]]]]]]]; discriminate E | discriminate].
    + intros c Hc. split; [reflexivity|].
      rewrite !elem_of_cons, elem_of_nil in Hc.
      destruct Hc as [E|[E|[E|Hc]]]; try discriminate E.
      unfold components. rewrite !elem_of_cons, elem_of_nil.
      destruct Hc as [E|[E|[E|[E|[E|[]]]]]]; injection E as ->; tauto.
    + intros a k o items Hm. rewrite !elem_of_cons, elem_of_nil in Hm.
      destruct Hm as [E|[E|[E|[E|[E|[E|[E|[E|[]]]]]]]]]; discriminate E.
Qed.

End AppBar.

(* ===================================================================== *)
(** * More of the handlers on the small environment *)
(* ===================================================================== *)

Section MoreExamples.
Import EventEmitter CalendarToolbar.

(** C9. The name on the button is not always the name the map held pairs
    with the current index.  The popover is mounted on a store whose one
    schedule, of index 0, is named "Schedule 1"; the schedule is renamed and
    the store emits [scheduleNamesChange].  The popover then holds the new
    map, whose first pair of index 0 is named "Renamed", and the index 0,
    but its button still shows "Schedule 1": the dependency list of the
    memo names the index alone. *)
Theorem currentScheduleName_stale_after_rename :
  displayedName (mount (Fixture.state Fixture.one_schedule true)) = "Schedule 1"
  /\ scheduleMap (held (run (Fixture.state Fixture.one_schedule true)
                          [[Emitted "scheduleNamesChange"
                              (Fixture.state Fixture.renamed true)]]))
     = Fixture.renamed
  /\ currentScheduleIndex (held (run (Fixture.state Fixture.one_schedule true)
                                   [[Emitted "scheduleNamesChange"
                                       (Fixture.state Fixture.renamed true)]]))
     = 0
  /\ concat (snd <$> Fixture.renamed) !! 0%nat = Some (0, "Renamed")
  /\ displayedName (run (Fixture.state Fixture.one_schedule true)
                       [[Emitted "scheduleNamesChange"
                           (Fixture.state Fixture.renamed true)]])
     = "Schedule 1".
Proof. repeat split. Qed.

Lemma selected_entry_is_displayed_name_witness :
  displayedName (mount (Fixture.state Fixture.two_schedules true)) = "Schedule 1"
  /\ displayedName
       (rerender (run (Fixture.state Fixture.two_schedules true) [[Clicked 1%positive]])
          [Emitted "currentScheduleIndexChange"
             (Fixture.step (changeCurrentSchedule 1)
                (Fixture.state Fixture.two_schedules true))])
     = "Schedule 2".
Proof.
  destruct (selected_entry_is_displayed_name (Fixture.state Fixture.two_schedules true))
    as [Hmount Hnext].
  split.
  - apply (Hmount 0 "Schedule 1").
    + apply (bool_decide_unpack _). vm_compute. reflexivity.
    + unfold entries. simpl. left.
    + reflexivity.
  - apply (Hnext [[Clicked 1%positive]] _ 1 "Schedule 2").
    + vm_compute. discriminate.
    + apply (bool_decide_unpack _). vm_compute. reflexivity.
    + unfold mount, rerender, run, entries. simpl. right. left.
    + reflexivity.
Defined.

Lemma delete_dialog_stays_closed_witness :
  dialog (foldl DeleteScheduleButton_step
            (DeleteScheduleButton_mount (Fixture.state Fixture.one_schedule true))
            [ButtonClick;
             Rendered (Fixture.state Fixture.renamed true);
             DialogClose;
             ButtonClick])
  = false.
Proof.
  apply delete_dialog_stays_closed.
  - reflexivity.
  - intros store' Hin. rewrite !elem_of_cons, elem_of_nil in Hin.
    destruct Hin as [E|[[= ->]|[E|[E|[]]]]]; [discriminate E | reflexivity | discriminate E ..].
Defined.

End MoreExamples.
